(** * FuzzyMatch: the best-match loop of [fuzzy_matcher.py]

    The script reads two columns of text, scores every item of the main
    column against every distinct item of the target column with one of the
    four [fuzzywuzzy.fuzz] functions, keeps the best scoring target, labels
    the pair against a threshold and finally shows summary metrics.

    Python [str] is [string], Python [int] is [Z], the [results] list of
    dictionaries is a list of records, and the imported module [fuzz] is a
    record of four functions, so that every statement about the loop holds
    for whatever the scoring functions compute. *)

From Stdlib Require Import List ZArith String Ascii Bool Arith Lia QArith.
From Stdlib Require Import Permutation.
Import ListNotations.

Open Scope string_scope.
Open Scope Z_scope.
Open Scope list_scope.

(** ** The imported scoring module *)

(** [from fuzzywuzzy import fuzz]: the four functions the script calls. *)
Record Fuzz : Type := {
  fuzz_ratio : string -> string -> Z;
  fuzz_partial_ratio : string -> string -> Z;
  fuzz_token_sort_ratio : string -> string -> Z;
  fuzz_token_set_ratio : string -> string -> Z
}.

(** ** The rows of [results] *)

(** One dictionary appended to [results] (lines 95-100); the field names are
    the dictionary keys 'Main Item', 'Best Match', 'Confidence (%)' and
    'Match Status'. *)
Record Row : Type := {
  Main_Item : string;
  Best_Match : string;
  Confidence : Z;
  Match_Status : string
}.

Definition no_match_found : string := "No match found".

(** ** Reading the columns (lines 59-60) *)

(** A cell of the uploaded table: [None] is a null (NaN) cell. *)
Definition dropna (column : list (option string)) : list string :=
  flat_map (fun cell => match cell with Some s => [s] | None => [] end) column.

Definition mem_string (s : string) (l : list string) : bool :=
  existsb (String.eqb s) l.

(** [Series.unique()]: the distinct values in order of first occurrence. *)
Definition unique (l : list string) : list string :=
  fold_left (fun seen s => if mem_string s seen then seen else seen ++ [s]) l [].

(** ** The inner scan (lines 72-90) *)

Section Loop.

Variable fuzz : Fuzz.
Variable match_method : string.
Variable threshold : Z.
Variable target_items : list string.

(** Lines 78-85: the [if]/[elif] chain on the selected method. *)
Definition calc_score (main_item target_item : string) : Z :=
  if (match_method =? "Ratio")%string then fuzz_ratio fuzz main_item target_item
  else if (match_method =? "Partial Ratio")%string then fuzz_partial_ratio fuzz main_item target_item
  else if (match_method =? "Token Sort Ratio")%string then fuzz_token_sort_ratio fuzz main_item target_item
  else fuzz_token_set_ratio fuzz main_item target_item.

(** The pair [(best_match, best_score)]; [None] is Python's [None]. *)
Definition Best : Type := (option string * Z)%type.

(** Lines 72-73. *)
Definition best_init : Best := (None, 0).

(** Lines 77-90: one pass of the body of [for target_item in target_items]. *)
Definition scan_step (main_item : string) (st : Best) (target_item : string) : Best :=
  let '(best_match, best_score) := st in
  let score := calc_score main_item target_item in
  if score >? best_score then (Some target_item, score) else (best_match, best_score).

Definition scan (main_item : string) (targets : list string) : Best :=
  fold_left (scan_step main_item) targets best_init.

(** What [(best_match, best_score)] holds once the items [seen] have been
    compared with [main_item]. *)
Definition scan_inv (main_item : string) (seen : list string) (st : Best) : Prop :=
  0 <= snd st /\
  (forall u, In u seen -> calc_score main_item u <= snd st) /\
  match fst st with
  | None => snd st = 0
  | Some t =>
      0 < snd st /\
      exists pre post,
        seen = pre ++ t :: post /\
        calc_score main_item t = snd st /\
        (forall u, In u pre -> calc_score main_item u < snd st)
  end.

(** Python truthiness of [best_match]: [None] and the empty string are
    false, every other string is true (line 97). *)
Definition truthy (best_match : option string) : bool :=
  match best_match with
  | None => false
  | Some s => negb (s =? "")%string
  end.

(** Lines 93-100: the dictionary built for one main item. *)
Definition make_row (main_item : string) (st : Best) : Row :=
  let '(best_match, best_score) := st in
  let is_match := best_score >=? threshold in
  {| Main_Item := main_item;
     Best_Match := if truthy best_match
                   then match best_match with Some s => s | None => no_match_found end
                   else no_match_found;
     Confidence := best_score;
     Match_Status := if is_match then "Match" else "No Match" |}.

(** Lines 72-100 for one [main_item]. *)
Definition match_item (main_item : string) : Row :=
  make_row main_item (scan main_item target_items).

(** ** The outer loop (lines 65-108) *)

(** A value handed to the progress bar: the literal [0] it is created with
    (line 68), or [(idx + 1) / len(main_items)] (lines 103-104), kept as the
    two operands of the division. *)
Inductive BarValue : Type :=
| Bar_zero : BarValue
| Bar_fraction : nat -> nat -> BarValue.

(** What lines 65-105 build: the [results] list and, in order, the values
    handed to the progress bar. *)
Record LoopState : Type := {
  results : list Row;
  progress : list BarValue
}.

(** Lines 65-69: the empty [results] and the bar created with the value 0. *)
Definition loop_init : LoopState :=
  {| results := []; progress := [Bar_zero] |}.

(** [enumerate(main_items)]. *)
Definition enumerate (main_items : list string) : list (nat * string) :=
  combine (seq 0 (List.length main_items)) main_items.

(** Lines 72-105: the body of [for idx, main_item in enumerate(main_items)].
    It has no [break], [return] or [raise] and reads no flag. *)
Definition loop_body (total : nat) (s : LoopState) (it : nat * string) : LoopState :=
  let '(idx, main_item) := it in
  {| results := results s ++ [match_item main_item];
     progress := progress s ++ [Bar_fraction (S idx) total] |}.

Definition loop (main_items : list string) : LoopState :=
  fold_left (loop_body (List.length main_items)) (enumerate main_items) loop_init.

(** Lines 65-110: [results] after the loop, the rows of [result_df]. *)
Definition fuzzy_match (main_items : list string) : list Row :=
  results (loop main_items).

End Loop.

(** Lines 57-113: what pressing the button computes from the two columns. *)
Definition run_fuzzy_match (fuzz : Fuzz) (match_method : string) (threshold : Z)
    (main_column target_column : list (option string)) : list Row :=
  let main_items := dropna main_column in
  let target_items := unique (dropna target_column) in
  fuzzy_match fuzz match_method threshold target_items main_items.

(** ** The summary metrics (lines 124-135) *)

(** [pd.DataFrame(results)] takes its columns from the keys of the
    dictionaries in [results]: built from the empty list it has no column at
    all, and selecting a column by its name then raises [KeyError]. *)
Inductive Outcome (A : Type) : Type :=
| Ok : A -> Outcome A
| KeyError : string -> Outcome A.

Arguments Ok {A} _.
Arguments KeyError {A} _.

Definition bind {A B : Type} (c : Outcome A) (k : A -> Outcome B) : Outcome B :=
  match c with
  | Ok a => k a
  | KeyError name => KeyError name
  end.

Notation "x <- c ;; k" := (bind c (fun x => k))
  (at level 61, c at next level, right associativity).

(** [result_df[name]]. *)
Definition column {A : Type} (name : string) (field : Row -> A)
    (result_df : list Row) : Outcome (list A) :=
  match result_df with
  | [] => KeyError name
  | _ :: _ => Ok (map field result_df)
  end.

(** [result_df[mask]]: the rows whose entry of the boolean mask is true. *)
Definition boolean_index (result_df : list Row) (mask : list bool) : list Row :=
  map fst (filter snd (combine result_df mask)).

Definition sum_Z (xs : list Z) : Z := fold_right Z.add 0 xs.

(** [Series.mean()]: NaN ([None]) for an empty series, else the sum over
    the count. pandas returns that quotient rounded to binary64; the exact
    rational stands for it here, so nothing is stated about its digits, only
    that it exists and the bounds that the rounding keeps. *)
Definition mean (xs : list Z) : option Q :=
  match xs with
  | [] => None
  | _ :: _ => Some (inject_Z (sum_Z xs) / inject_Z (Z.of_nat (List.length xs)))%Q
  end.

(** The four values shown by [st.metric]. *)
Record Metrics : Type := {
  Total_Items : nat;
  Matches_Found : nat;
  No_Matches : nat;
  Avg_Confidence : option Q
}.

(** Lines 126-134. *)
Definition summary_metrics (result_df : list Row) : Outcome Metrics :=
  let total := List.length result_df in
  status <- column "Match Status" Match_Status result_df ;;
  let matches :=
    List.length (boolean_index result_df (map (fun v => (v =? "Match")%string) status)) in
  status' <- column "Match Status" Match_Status result_df ;;
  let no_matches :=
    List.length (boolean_index result_df (map (fun v => (v =? "No Match")%string) status')) in
  confidence <- column "Confidence (%)" Confidence result_df ;;
  let avg_confidence := mean confidence in
  Ok {| Total_Items := total;
        Matches_Found := matches;
        No_Matches := no_matches;
        Avg_Confidence := avg_confidence |}.

(** ** The filter and the table (lines 137-164) *)

(** Lines 146-151: the rows kept for the option picked in the radio
    ["All", "Matches Only", "No Matches Only"]; any option other than the two
    filtering ones takes the [else] branch. *)
Definition display_df (filter_option : string) (result_df : list Row)
  : Outcome (list Row) :=
  if (filter_option =? "Matches Only")%string then
    status <- column "Match Status" Match_Status result_df ;;
    Ok (boolean_index result_df (map (fun v => (v =? "Match")%string) status))
  else if (filter_option =? "No Matches Only")%string then
    status <- column "Match Status" Match_Status result_df ;;
    Ok (boolean_index result_df (map (fun v => (v =? "No Match")%string) status))
  else Ok result_df.

(** Line 157: the style the lambda gives to a cell of 'Match Status'. *)
Definition status_style (x : string) : string :=
  if (x =? "Match")%string then "background-color: #90EE90"
  else if (x =? "No Match")%string then "background-color: #FFB6C6"
  else "".

(** What lines 154-164 put on the page: the table with the styles of its
    'Match Status' cells, or a warning. The colour gradient of the
    confidence column is left out. *)
Inductive Shown : Type :=
| Dataframe : list Row -> list string -> Shown
| Warning : string -> Shown.

(** Lines 154-164. *)
Definition show_results (display : list Row) : Shown :=
  if (0 <? List.length display)%nat
  then Dataframe display (map (fun r => status_style (Match_Status r)) display)
  else Warning "No results match the selected filter.".

(** Lines 118-164: the metrics, then the filtered table. *)
Definition results_section (filter_option : string) (result_df : list Row)
  : Outcome (Metrics * Shown) :=
  m <- summary_metrics result_df ;;
  display <- display_df filter_option result_df ;;
  Ok (m, show_results display).

(** ** One run of the script (lines 14-179) *)

(** The values of the widgets in a run with an uploaded file: the cells of
    the two selected columns, the method, the threshold, whether the button
    was pressed in this run, and the filter option. *)
Record Widgets : Type := {
  sel_main_column : list (option string);
  sel_target_column : list (option string);
  sel_match_method : string;
  sel_threshold : Z;
  run_button : bool;
  sel_filter : string
}.

(** [st.session_state]: the entry 'result_df', if there is one. *)
Definition Session : Type := option (list Row).

(** Lines 14-179: a run of the script, from the session state it starts
    with to the session state it leaves and the results section it shows
    ([None] when it shows none). Without an uploaded file nothing is
    computed or shown; pressing the button stores the new rows (line 113)
    before the results section is built from the stored rows (line 117). *)
Definition script (fuzz : Fuzz) (uploaded : option Widgets) (session : Session)
  : Session * option (Outcome (Metrics * Shown)) :=
  match uploaded with
  | None => (session, None)
  | Some w =>
      let session' :=
        if run_button w
        then Some (run_fuzzy_match fuzz (sel_match_method w) (sel_threshold w)
                     (sel_main_column w) (sel_target_column w))
        else session in
      (session', option_map (results_section (sel_filter w)) session')
  end.

(** The largest of the scores, and 0 when there is none above it. *)
Definition best_of (scores : list Z) : Z := fold_right Z.max 0 scores.

(** ** The similarity scorer

    [fuzzywuzzy] is imported, not part of the script, so the four scoring
    functions are written here after section 4.1 of the specification. *)

Module Scorer.

Definition chars : Type := list ascii.

(** Modelled from the spec: the enumeration [MatchAlgorithm] of section 3. *)
Inductive MatchAlgorithm : Type :=
| Ratio
| PartialRatio
| TokenSortRatio
| TokenSetRatio.

(** *** Normalization *)

(** Modelled from the spec: the whitespace characters that [trim] and
    [collapse internal whitespace] act on (the library's own notion is
    missing): space, tab, line feed, vertical tab, form feed and carriage
    return. *)
Definition is_space (c : ascii) : bool :=
  match nat_of_ascii c with
  | 9%nat | 10%nat | 11%nat | 12%nat | 13%nat | 32%nat => true
  | _ => false
  end.

(** Modelled from the spec: [lowercase], the library's case folding is
    missing; the letters A to Z are mapped to a to z. *)
Definition lower (c : ascii) : ascii :=
  let n := nat_of_ascii c in
  if ((65 <=? n) && (n <=? 90))%nat then ascii_of_nat (n + 32) else c.

Definition lowercase (s : chars) : chars := map lower s.

Fixpoint drop_spaces (s : chars) : chars :=
  match s with
  | [] => []
  | c :: s' => if is_space c then drop_spaces s' else s
  end.

Fixpoint drop_trailing_spaces (s : chars) : chars :=
  match s with
  | [] => []
  | c :: s' =>
      match drop_trailing_spaces s' with
      | [] => if is_space c then [] else [c]
      | d :: r => c :: d :: r
      end
  end.

(** Modelled from the spec: [trim], leading and trailing whitespace
    removed. *)
Definition trim (s : chars) : chars :=
  drop_trailing_spaces (drop_spaces s).

(** Modelled from the spec: [collapse internal whitespace], every run of
    whitespace characters becomes one space. *)
Fixpoint collapse (s : chars) : chars :=
  match s with
  | [] => []
  | c :: s' =>
      if is_space c then
        match s' with
        | [] => [" "%char]
        | d :: _ => if is_space d then collapse s' else " "%char :: collapse s'
        end
      else c :: collapse s'
  end.

Definition flush (cur : chars) (acc : list chars) : list chars :=
  match cur with
  | [] => acc
  | _ :: _ => cur :: acc
  end.

(** The token being read at the front of [s] and the tokens after it. *)
Fixpoint split_ws (s : chars) : chars * list chars :=
  match s with
  | [] => ([], [])
  | c :: s' =>
      let '(cur, acc) := split_ws s' in
      if is_space c then ([], flush cur acc) else (c :: cur, acc)
  end.

(** Modelled from the spec: [tokenize both strings on whitespace]. *)
Definition tokens (s : chars) : list chars :=
  let '(cur, acc) := split_ws s in flush cur acc.

(** Modelled from the spec: [rejoin with single spaces]. *)
Fixpoint join (ws : list chars) : chars :=
  match ws with
  | [] => []
  | w :: ws' =>
      match ws' with
      | [] => w
      | _ :: _ => w ++ " "%char :: join ws'
      end
  end.

(** The token in progress followed by the tokens after it, single spaces
    between them. *)
Definition joined (cur : chars) (acc : list chars) : chars :=
  match acc with
  | [] => cur
  | _ :: _ => cur ++ " "%char :: join acc
  end.

(** Modelled from the spec: the pre-processing of all four algorithms,
    [lowercase/trim and collapse internal whitespace]. *)
Definition normalize (s : chars) : chars :=
  trim (collapse (lowercase s)).

(** *** Ratio *)

Definition subst_cost (x y : ascii) : nat :=
  if (x =? y)%char then 0%nat else 2%nat.

(** Modelled from the spec: [the Levenshtein edit distance treating a
    substitution as cost 2 and insert/delete as cost 1]. *)
Fixpoint weighted_distance (a b : chars) {struct a} : nat :=
  match a with
  | [] => List.length b
  | x :: a' =>
      (fix row (b : chars) : nat :=
         match b with
         | [] => S (List.length a')
         | y :: b' =>
             Nat.min (S (weighted_distance a' b))
               (Nat.min (S (row b'))
                  (weighted_distance a' b' + subst_cost x y))
         end) b
  end.

(** Modelled from the spec: [rounded to nearest integer], with the
    round-half-up rule section 9 suggests; the rounding of [num / den] for a
    positive [den]. *)
Definition round_div (num den : Z) : Z := (2 * num + den) / (2 * den).

(** Modelled from the spec: [Ratio],
    [100 * (1 - weighted_distance / total_length)] rounded to the nearest
    integer with a floor at 0, [total_length = len(a) + len(b)]; two empty
    strings score 100. *)
Definition ratio (a b : chars) : Z :=
  let total := Z.of_nat (List.length a + List.length b) in
  let dist := Z.of_nat (weighted_distance a b) in
  if total =? 0 then 100
  else Z.max 0 (round_div (100 * (total - dist)) total).

Definition max_list (xs : list Z) : Z := fold_right Z.max 0 xs.

(** *** Partial Ratio *)

(** Modelled from the spec: [all alignment offsets (sliding window)], the
    substrings of [l] of length [n], one per offset. *)
Fixpoint windows (n : nat) (l : chars) : list chars :=
  (if (n <=? List.length l)%nat then [firstn n l] else [])
    ++ match l with
       | [] => []
       | _ :: l' => windows n l'
       end.

(** Modelled from the spec: [Partial Ratio], the maximum of Ratio of the
    shorter string against every window of its length in the longer one. *)
Definition partial_ratio (a b : chars) : Z :=
  let '(shorter, longer) :=
    if (List.length a <=? List.length b)%nat then (a, b) else (b, a) in
  max_list (map (ratio shorter) (windows (List.length shorter) longer)).

(** *** Token Sort Ratio *)

(** Modelled from the spec: [sort tokens alphabetically], the order is
    lexicographic on character codes. *)
Fixpoint token_leb (u v : chars) : bool :=
  match u, v with
  | [], _ => true
  | _ :: _, [] => false
  | x :: u', y :: v' =>
      if (nat_of_ascii x <? nat_of_ascii y)%nat then true
      else if (x =? y)%char then token_leb u' v'
      else false
  end.

Fixpoint insert_token (t : chars) (ts : list chars) : list chars :=
  match ts with
  | [] => [t]
  | u :: ts' => if token_leb t u then t :: ts else u :: insert_token t ts'
  end.

Definition sort_tokens (ts : list chars) : list chars :=
  fold_right insert_token [] ts.

(** Modelled from the spec: [Token Sort Ratio], Ratio of the two strings
    with their tokens sorted and rejoined with single spaces. *)
Definition token_sort_ratio (a b : chars) : Z :=
  ratio (join (sort_tokens (tokens a))) (join (sort_tokens (tokens b))).

(** *** Token Set Ratio *)

Definition chars_eq_dec : forall u v : chars, {u = v} + {u <> v} :=
  list_eq_dec ascii_dec.

Definition mem_token (t : chars) (ts : list chars) : bool :=
  if in_dec chars_eq_dec t ts then true else false.

Definition token_set (s : chars) : list chars :=
  nodup chars_eq_dec (tokens s).

(** Modelled from the spec: [Token Set Ratio], the maximum of Ratio taken
    pairwise among the sorted intersection, the sorted intersection followed
    by the sorted rest of [a], and the sorted intersection followed by the
    sorted rest of [b]. *)
Definition token_set_ratio (a b : chars) : Z :=
  let ta := token_set a in
  let tb := token_set b in
  let inter := sort_tokens (filter (fun t => mem_token t tb) ta) in
  let diff_a := sort_tokens (filter (fun t => negb (mem_token t tb)) ta) in
  let diff_b := sort_tokens (filter (fun t => negb (mem_token t ta)) tb) in
  let t0 := join inter in
  let t1 := join (inter ++ diff_a) in
  let t2 := join (inter ++ diff_b) in
  Z.max (ratio t0 t1) (Z.max (ratio t0 t2) (ratio t1 t2)).

(** *** The scorer *)

(** Modelled from the spec: the contract of section 4.1 on normalized
    inputs; 100 when both are empty, 0 when exactly one is, the selected
    algorithm otherwise. *)
Definition score_normalized (a b : chars) (algorithm : MatchAlgorithm) : Z :=
  match a, b with
  | [], [] => 100
  | [], _ :: _ => 0
  | _ :: _, [] => 0
  | _ :: _, _ :: _ =>
      match algorithm with
      | Ratio => ratio a b
      | PartialRatio => partial_ratio a b
      | TokenSortRatio => token_sort_ratio a b
      | TokenSetRatio => token_set_ratio a b
      end
  end.

(** Modelled from the spec: [score(a, b, algorithm)] of section 4.1, whose
    implementation (the imported scoring library) is missing: the inputs are
    normalized, then scored. *)
Definition score_chars (a b : chars) (algorithm : MatchAlgorithm) : Z :=
  score_normalized (normalize a) (normalize b) algorithm.

(** Modelled from the spec: [score] on strings, the function the four
    library calls of lines 78-85 stand for. *)
Definition score (a b : string) (algorithm : MatchAlgorithm) : Z :=
  score_chars (list_ascii_of_string a) (list_ascii_of_string b) algorithm.

(** The three normalizing operations on strings. *)
Definition on_string (f : chars -> chars) (s : string) : string :=
  string_of_list_ascii (f (list_ascii_of_string s)).

Definition trim_string : string -> string := on_string trim.

(** Whether a string holds nothing but whitespace. *)
Definition blank (a : string) : bool :=
  forallb is_space (list_ascii_of_string a).

(** Modelled from the spec: the scorer in the shape of the imported module
    [fuzz], one function per algorithm. *)
Definition spec_fuzz : Fuzz :=
  {| fuzz_ratio := fun a b => score a b Ratio;
     fuzz_partial_ratio := fun a b => score a b PartialRatio;
     fuzz_token_sort_ratio := fun a b => score a b TokenSortRatio;
     fuzz_token_set_ratio := fun a b => score a b TokenSetRatio |}.

End Scorer.

(** ** Statements and example data *)

(** [t] is the first item of [pool] whose score is [best], the largest score
    in [pool]: every item before it scores less, every item after it scores
    no more. *)
Definition first_maximum (score : string -> Z) (pool : list string)
    (t : string) (best : Z) : Prop :=
  exists pre post,
    pool = pre ++ t :: post /\
    score t = best /\
    (forall u, In u pre -> score u < best) /\
    (forall u, In u post -> score u <= best).

Definition example_pool : list string := ["ab"; "a"; "A"].

Definition example_queries : list string := ["a"; "zz"; "a"].

Definition example_row : Row :=
  match_item Scorer.spec_fuzz "Ratio" 80 example_pool "a".

Definition empty_pool_row : Row :=
  match_item Scorer.spec_fuzz "Ratio" 80 [] "a".

(** A run in which the button is pressed, a later run in which only the
    threshold and the filter were changed, and a run on a main column with
    null cells only. *)
Definition example_widgets : Widgets :=
  {| sel_main_column := [Some "a"; None; Some "zz"];
     sel_target_column := [Some "ab"; Some "a"; None; Some "a"];
     sel_match_method := "Ratio";
     sel_threshold := 80;
     run_button := true;
     sel_filter := "All" |}.

Definition example_widgets_later : Widgets :=
  {| sel_main_column := [Some "a"; None; Some "zz"];
     sel_target_column := [Some "ab"; Some "a"; None; Some "a"];
     sel_match_method := "Ratio";
     sel_threshold := 0;
     run_button := false;
     sel_filter := "Matches Only" |}.

Definition null_widgets : Widgets :=
  {| sel_main_column := [None; None];
     sel_target_column := [Some "a"];
     sel_match_method := "Ratio";
     sel_threshold := 80;
     run_button := true;
     sel_filter := "All" |}.

(** * Facts about the scorer *)

Module ScorerFacts.
Import Scorer.

(** ** Characters *)

Ltac by_cases_on_char c :=
  destruct c as [[] [] [] [] [] [] [] []]; vm_compute; reflexivity.

Lemma lower_idempotent (c : ascii) : lower (lower c) = lower c.
Proof. by_cases_on_char c. Qed.

Lemma is_space_lower (c : ascii) : is_space (lower c) = is_space c.
Proof. by_cases_on_char c. Qed.

Lemma is_space_blank : is_space " "%char = true.
Proof. reflexivity. Qed.

Lemma lowercase_idempotent (s : chars) : lowercase (lowercase s) = lowercase s.
Proof.
  unfold lowercase. rewrite map_map.
  apply map_ext. intro c. apply lower_idempotent.
Qed.

(** ** Tokens *)

Lemma flush_nil (acc : list chars) : flush [] acc = acc.
Proof. reflexivity. Qed.

Lemma split_ws_cons (c : ascii) (s : chars) :
  split_ws (c :: s) =
    (if is_space c then ([], flush (fst (split_ws s)) (snd (split_ws s)))
     else (c :: fst (split_ws s), snd (split_ws s))).
Proof. simpl. destruct (split_ws s) as [cur acc]. reflexivity. Qed.

Lemma tokens_split (s : chars) :
  tokens s = flush (fst (split_ws s)) (snd (split_ws s)).
Proof. unfold tokens. destruct (split_ws s) as [cur acc]. reflexivity. Qed.

(** A string that starts with a space has no token in progress at its
    front. *)
Lemma split_ws_space_front (c : ascii) (s : chars) :
  is_space c = true -> fst (split_ws (c :: s)) = [].
Proof. intro Hc. rewrite split_ws_cons, Hc. reflexivity. Qed.

Lemma split_ws_collapse (s : chars) : split_ws (collapse s) = split_ws s.
Proof.
  induction s as [| c s' IH]; [reflexivity |].
  cbn [collapse].
  destruct (is_space c) eqn:Hc.
  - destruct s' as [| d s''].
    + rewrite !split_ws_cons, Hc. reflexivity.
    + destruct (is_space d) eqn:Hd.
      * rewrite IH. rewrite (split_ws_cons c), Hc.
        rewrite (split_ws_cons d), Hd. reflexivity.
      * rewrite (split_ws_cons " "%char), (split_ws_cons c), Hc, IH.
        reflexivity.
  - rewrite !split_ws_cons, Hc, IH. reflexivity.
Qed.

Lemma split_ws_drop_trailing (s : chars) :
  split_ws (drop_trailing_spaces s) = split_ws s.
Proof.
  induction s as [| c s' IH]; [reflexivity |].
  cbn [drop_trailing_spaces].
  destruct (drop_trailing_spaces s') as [| d r] eqn:Hr.
  - rewrite (split_ws_cons c s'), <- IH. cbn.
    destruct (is_space c) eqn:Hc.
    + reflexivity.
    + rewrite split_ws_cons, Hc. reflexivity.
  - rewrite (split_ws_cons c (d :: r)), IH, <- split_ws_cons. reflexivity.
Qed.

Lemma tokens_collapse (s : chars) : tokens (collapse s) = tokens s.
Proof. rewrite !tokens_split, split_ws_collapse. reflexivity. Qed.

Lemma tokens_drop_spaces (s : chars) : tokens (drop_spaces s) = tokens s.
Proof.
  induction s as [| c s' IH]; [reflexivity |].
  cbn [drop_spaces]. destruct (is_space c) eqn:Hc; [| reflexivity].
  rewrite IH, (tokens_split (c :: s')), split_ws_cons, Hc.
  cbn [fst snd flush]. apply tokens_split.
Qed.

Lemma tokens_trim (s : chars) : tokens (trim s) = tokens s.
Proof.
  unfold trim.
  rewrite tokens_split, split_ws_drop_trailing, <- tokens_split.
  apply tokens_drop_spaces.
Qed.

Lemma split_ws_lowercase (s : chars) :
  split_ws (lowercase s) =
    (lowercase (fst (split_ws s)), map lowercase (snd (split_ws s))).
Proof.
  induction s as [| c s' IH]; [reflexivity |].
  change (lowercase (c :: s')) with (lower c :: lowercase s').
  rewrite !split_ws_cons, is_space_lower, IH. cbn [fst snd].
  destruct (is_space c); [| reflexivity].
  destruct (fst (split_ws s')); reflexivity.
Qed.

Lemma tokens_lowercase (s : chars) :
  tokens (lowercase s) = map lowercase (tokens s).
Proof.
  rewrite !tokens_split, split_ws_lowercase. cbn [fst snd].
  destruct (fst (split_ws s)); reflexivity.
Qed.

(** ** Normal form *)

Lemma join_cons (w : chars) (ws : list chars) : join (w :: ws) = joined w ws.
Proof. destruct ws; reflexivity. Qed.

Lemma joined_flush (cur : chars) (acc : list chars) :
  cur <> [] -> join (flush cur acc) = joined cur acc.
Proof.
  destruct cur as [| c cur']; [congruence |].
  intros _. cbn [flush]. apply join_cons.
Qed.

Lemma drop_spaces_collapse (s : chars) :
  drop_spaces (collapse s) = collapse (drop_spaces s).
Proof.
  induction s as [| c s' IH]; [reflexivity |].
  cbn [collapse drop_spaces].
  destruct (is_space c) eqn:Hc.
  - destruct s' as [| d s'']; [reflexivity |].
    destruct (is_space d) eqn:Hd.
    + exact IH.
    + cbn [drop_spaces]. rewrite is_space_blank. exact IH.
  - cbn [drop_spaces collapse]. rewrite Hc. reflexivity.
Qed.

Lemma drop_trailing_collapse (s : chars) :
  drop_trailing_spaces (collapse s) =
    joined (fst (split_ws s)) (snd (split_ws s)).
Proof.
  induction s as [| c s' IH]; [reflexivity |].
  rewrite split_ws_cons. cbn [collapse].
  destruct (is_space c) eqn:Hc.
  - destruct s' as [| d s''].
    + reflexivity.
    + destruct (is_space d) eqn:Hd.
      * rewrite IH, (split_ws_space_front d s'' Hd). cbn [fst snd flush].
        destruct (snd (split_ws (d :: s''))); reflexivity.
      * cbn [drop_trailing_spaces]. rewrite IH, is_space_blank.
        rewrite (split_ws_cons d s''), Hd. cbn [fst snd flush].
        unfold joined at 2. rewrite join_cons.
        destruct (joined (d :: fst (split_ws s'')) (snd (split_ws s''))) eqn:Hj.
        -- destruct (snd (split_ws s'')); discriminate Hj.
        -- reflexivity.
  - cbn [drop_trailing_spaces]. rewrite IH. cbn [fst snd].
    destruct (snd (split_ws s')) as [| w ws]; cbn [joined].
    + destruct (fst (split_ws s')); [rewrite Hc |]; reflexivity.
    + destruct (fst (split_ws s')); reflexivity.
Qed.

Lemma trim_collapse (s : chars) : trim (collapse s) = join (tokens s).
Proof.
  unfold trim.
  rewrite drop_spaces_collapse, drop_trailing_collapse, <- tokens_drop_spaces.
  rewrite tokens_split.
  destruct (drop_spaces s) as [| c s'] eqn:Hs; [reflexivity |].
  assert (Hc : is_space c = false).
  { clear - Hs. induction s as [| x s IH]; [discriminate |].
    cbn [drop_spaces] in Hs. destruct (is_space x) eqn:Hx.
    - auto.
    - injection Hs as -> _. exact Hx. }
  symmetry. apply joined_flush.
  rewrite split_ws_cons, Hc. discriminate.
Qed.

Lemma normalize_tokens (s : chars) :
  normalize s = join (map lowercase (tokens s)).
Proof. unfold normalize. rewrite trim_collapse, tokens_lowercase. reflexivity. Qed.

Lemma normalize_lowercase (s : chars) : normalize (lowercase s) = normalize s.
Proof. unfold normalize. rewrite lowercase_idempotent. reflexivity. Qed.

Lemma normalize_trim (s : chars) : normalize (trim s) = normalize s.
Proof. rewrite !normalize_tokens, tokens_trim. reflexivity. Qed.

Lemma normalize_collapse (s : chars) : normalize (collapse s) = normalize s.
Proof. rewrite !normalize_tokens, tokens_collapse. reflexivity. Qed.

(** ** The weighted distance *)

Lemma weighted_distance_nil_r (a : chars) :
  weighted_distance a [] = List.length a.
Proof. destruct a; reflexivity. Qed.

Lemma weighted_distance_cons (x y : ascii) (a b : chars) :
  weighted_distance (x :: a) (y :: b) =
    Nat.min (S (weighted_distance a (y :: b)))
      (Nat.min (S (weighted_distance (x :: a) b))
         (weighted_distance a b + subst_cost x y)).
Proof. reflexivity. Qed.

Lemma subst_cost_sym (x y : ascii) : subst_cost x y = subst_cost y x.
Proof. unfold subst_cost. rewrite Ascii.eqb_sym. reflexivity. Qed.

Lemma weighted_distance_sym (a b : chars) :
  weighted_distance a b = weighted_distance b a.
Proof.
  revert b. induction a as [| x a IHa]; intro b.
  - symmetry. apply weighted_distance_nil_r.
  - induction b as [| y b IHb].
    + reflexivity.
    + rewrite !weighted_distance_cons.
      rewrite (IHa (y :: b)), IHb, (IHa b), (subst_cost_sym x y).
      lia.
Qed.

(** The distance never exceeds the total length: deleting all of [a] and
    inserting all of [b] is one way to align them. *)
Lemma weighted_distance_le (a b : chars) :
  (weighted_distance a b <= List.length a + List.length b)%nat.
Proof.
  revert b. induction a as [| x a IHa]; intro b.
  - cbn. lia.
  - destruct b as [| y b].
    + cbn [weighted_distance List.length]. lia.
    + rewrite weighted_distance_cons. specialize (IHa (y :: b)).
      cbn [List.length] in *. lia.
Qed.

Lemma ratio_sym (a b : chars) : ratio a b = ratio b a.
Proof.
  unfold ratio.
  rewrite (weighted_distance_sym a b), (Nat.add_comm (List.length a)).
  reflexivity.
Qed.

Lemma ratio_range (a b : chars) : 0 <= ratio a b <= 100.
Proof.
  unfold ratio, round_div.
  pose proof (weighted_distance_le a b) as Hle.
  set (t := Z.of_nat (List.length a + List.length b)).
  set (d := Z.of_nat (weighted_distance a b)).
  assert (Hd : 0 <= d <= t) by (subst t d; lia).
  destruct (t =? 0) eqn:Ht; [lia |].
  apply Z.eqb_neq in Ht.
  split; [lia |].
  apply Z.max_lub; [lia |].
  apply Z.lt_succ_r. apply Z.div_lt_upper_bound; nia.
Qed.

(** ** The scorer *)

Lemma score_chars_sym (a b : chars) :
  score_chars a b Ratio = score_chars b a Ratio.
Proof.
  unfold score_chars, score_normalized.
  destruct (normalize a) as [| x a'], (normalize b) as [| y b'];
    try reflexivity.
  apply ratio_sym.
Qed.

Lemma normalize_nil : normalize [] = [].
Proof. reflexivity. Qed.

Lemma score_chars_empty_r (a : chars) (algorithm : MatchAlgorithm) :
  score_chars a [] algorithm =
    match normalize a with [] => 100 | _ :: _ => 0 end.
Proof.
  unfold score_chars. rewrite normalize_nil.
  destruct (normalize a); reflexivity.
Qed.

(** A string normalizes to the empty string exactly when it holds nothing
    but whitespace. *)
Lemma tokens_nil_iff (s : chars) :
  tokens s = [] <-> forallb is_space s = true.
Proof.
  induction s as [| c s' IH]; [cbn; tauto |].
  rewrite tokens_split, split_ws_cons. cbn [forallb].
  destruct (is_space c) eqn:Hc; cbn [fst snd flush andb].
  - rewrite <- tokens_split. exact IH.
  - split; discriminate.
Qed.

Lemma token_nonempty (s : chars) : ~ In [] (tokens s).
Proof.
  assert (H : ~ In [] (snd (split_ws s))).
  { induction s as [| c s' IH]; [cbn; tauto |].
    rewrite split_ws_cons. destruct (is_space c); cbn [snd]; [| exact IH].
    destruct (fst (split_ws s')) as [| d r]; cbn [flush]; [exact IH |].
    intros [Heq | Hin]; [discriminate | auto]. }
  rewrite tokens_split.
  destruct (fst (split_ws s)) as [| d r]; cbn [flush]; [exact H |].
  intros [Heq | Hin]; [discriminate | auto].
Qed.

Lemma normalize_nil_iff (s : chars) :
  normalize s = [] <-> forallb is_space s = true.
Proof.
  rewrite normalize_tokens, <- tokens_nil_iff.
  pose proof (token_nonempty s) as Hne.
  destruct (tokens s) as [| w ws]; [cbn; tauto |].
  split; [| discriminate].
  cbn [map]. rewrite join_cons. intro Hj. exfalso.
  apply Hne. left.
  destruct w as [| c w']; [reflexivity |].
  destruct (map lowercase ws); discriminate Hj.
Qed.

Lemma normalize_idempotent (s : chars) : normalize (normalize s) = normalize s.
Proof.
  unfold normalize at 2.
  rewrite normalize_trim, normalize_collapse, normalize_lowercase.
  reflexivity.
Qed.

Lemma max_list_range (xs : list Z) :
  (forall x, In x xs -> 0 <= x <= 100) -> 0 <= max_list xs <= 100.
Proof.
  unfold max_list. induction xs as [| x xs IH]; intro H; cbn [fold_right].
  - lia.
  - assert (0 <= x <= 100) by (apply H; left; reflexivity).
    assert (0 <= fold_right Z.max 0 xs <= 100)
      by (apply IH; intros y Hy; apply H; right; exact Hy).
    lia.
Qed.

Lemma partial_ratio_range (a b : chars) : 0 <= partial_ratio a b <= 100.
Proof.
  unfold partial_ratio.
  destruct (List.length a <=? List.length b)%nat;
    apply max_list_range; intros x Hx;
    apply in_map_iff in Hx as (w & <- & _); apply ratio_range.
Qed.

Lemma token_set_ratio_range (a b : chars) : 0 <= token_set_ratio a b <= 100.
Proof.
  unfold token_set_ratio. cbv zeta.
  repeat match goal with
         | |- context [ratio ?u ?v] =>
             pose proof (ratio_range u v); generalize dependent (ratio u v); intros
         end.
  lia.
Qed.

(** Scores are integers between 0 and 100. *)
Lemma score_range (a b : string) (algorithm : MatchAlgorithm) :
  0 <= score a b algorithm <= 100.
Proof.
  unfold score, score_chars, score_normalized.
  destruct (normalize (list_ascii_of_string a)) as [| x a'],
           (normalize (list_ascii_of_string b)) as [| y b']; try lia.
  destruct algorithm.
  - apply ratio_range.
  - apply partial_ratio_range.
  - apply ratio_range.
  - apply token_set_ratio_range.
Qed.


(** A scorer that does not see trimming cannot both give 0 to every
    non-empty string against the empty one and 100 to two empty strings:
    a single space is not empty, and trims to the empty string. *)
Lemma trim_invariance_excludes_empty_rule (sc : string -> string -> Z) :
  (forall a b, sc (trim_string a) b = sc a b) ->
  (forall a, a <> "" -> sc a "" = 0) ->
  sc "" "" <> 100.
Proof.
  intros Htrim Hzero H100.
  assert (H : sc " " "" = 0) by (apply Hzero; discriminate).
  rewrite <- Htrim in H. change (trim_string " ") with "" in H.
  lia.
Qed.

(** ** The claims about the scorer *)


(** What the scorer written above gives against the empty string: 100 to a
    string that is empty or holds only whitespace, 0 to any other. The
    empty rule is applied here after the normalization; a scorer that
    applies it to the raw inputs gives 0 to a whitespace-only string
    instead, and then does not keep the trimming invariance (see
    [trim_invariance_excludes_empty_rule]). *)
Lemma score_against_empty (a : string) (algorithm : MatchAlgorithm) :
  score a "" algorithm = (if blank a then 100 else 0) /\
  score "" "" algorithm = 100.
Proof.
  split; [| reflexivity].
  unfold score, blank. cbn [list_ascii_of_string].
  rewrite score_chars_empty_r.
  destruct (forallb is_space (list_ascii_of_string a)) eqn:Hb.
  - apply normalize_nil_iff in Hb. rewrite Hb. reflexivity.
  - destruct (normalize (list_ascii_of_string a)) eqn:Hn; [| reflexivity].
    apply normalize_nil_iff in Hn. congruence.
Qed.

(** C8. Ratio is symmetric. *)
Theorem ratio_symmetric (a b : string) :
  score a b Ratio = score b a Ratio.
Proof. unfold score. apply score_chars_sym. Qed.

End ScorerFacts.

(** * Facts about the loop *)

Section LoopFacts.

Variable fuzz : Fuzz.
Variable match_method : string.
Variable threshold : Z.
Variable target_items : list string.

Local Abbreviation score_of := (calc_score fuzz match_method).
Local Abbreviation scan_of := (scan fuzz match_method).
Local Abbreviation step_of := (scan_step fuzz match_method).
Local Abbreviation row_of := (match_item fuzz match_method threshold target_items).
Local Abbreviation rows_of := (fuzzy_match fuzz match_method threshold target_items).
Local Abbreviation body_of := (loop_body fuzz match_method threshold target_items).
Local Abbreviation inv_of := (scan_inv fuzz match_method).

(** ** The inner scan *)

Lemma scan_snoc (main_item : string) (targets : list string) (t : string) :
  scan_of main_item (targets ++ [t]) = step_of main_item (scan_of main_item targets) t.
Proof. unfold scan. rewrite fold_left_app. reflexivity. Qed.

Lemma scan_invariant (main_item : string) (seen : list string) :
  inv_of main_item seen (scan_of main_item seen).
Proof.
  induction seen as [| t seen IH] using rev_ind.
  - unfold scan_inv. cbn. repeat split; [lia | tauto].
  - rewrite scan_snoc.
    destruct (scan_of main_item seen) as [best_match best_score].
    destruct IH as (Hpos & Hle & Hbest). cbn [fst snd] in *.
    unfold scan_step.
    destruct (score_of main_item t >? best_score) eqn:Hgt.
    + apply Z.gtb_lt in Hgt.
      unfold scan_inv. cbn [fst snd]. repeat split.
      * lia.
      * intros u Hu. apply in_app_or in Hu as [Hu | [<- | []]].
        -- specialize (Hle u Hu). lia.
        -- lia.
      * lia.
      * exists seen, []. repeat split.
        intros u Hu. specialize (Hle u Hu). lia.
    + assert (Hngt : score_of main_item t <= best_score).
      { destruct (Z.gtb_spec (score_of main_item t) best_score);
          [discriminate | lia]. }
      unfold scan_inv. cbn [fst snd]. repeat split.
      * exact Hpos.
      * intros u Hu. apply in_app_or in Hu as [Hu | [<- | []]]; auto.
      * destruct best_match as [b |]; [| exact Hbest].
        destruct Hbest as (Hb & pre & post & -> & Hsc & Hpre).
        split; [exact Hb |].
        exists pre, (post ++ [t]). repeat split; auto.
        rewrite <- app_assoc. reflexivity.
Qed.

(** ** The outer loop *)

Lemma loop_from (total : nat) (main_items : list string) (k : nat) (s : LoopState) :
  fold_left (body_of total) (combine (seq k (List.length main_items)) main_items) s =
    {| results := results s ++ map row_of main_items;
       progress := progress s ++
                   map (fun i => Bar_fraction (S i) total) (seq k (List.length main_items)) |}.
Proof.
  revert k s. induction main_items as [| q qs IH]; intros k s.
  - cbn. rewrite !app_nil_r. destruct s; reflexivity.
  - cbn [List.length seq combine fold_left map]. rewrite IH.
    cbn [loop_body results progress].
    rewrite <- !app_assoc. reflexivity.
Qed.

Lemma fuzzy_match_map (main_items : list string) :
  rows_of main_items = map row_of main_items.
Proof.
  unfold fuzzy_match, loop, enumerate. rewrite loop_from. reflexivity.
Qed.

Lemma in_fuzzy_match (main_items : list string) (r : Row) :
  In r (rows_of main_items) <->
  exists main_item, In main_item main_items /\ r = row_of main_item.
Proof.
  rewrite fuzzy_match_map, in_map_iff.
  split; intros (q & H1 & H2); exists q; auto.
Qed.

(** ** The fields of a row *)

Lemma main_item_of_row (q : string) : Main_Item (row_of q) = q.
Proof. unfold match_item, make_row. destruct (scan_of q target_items). reflexivity. Qed.

Lemma confidence_of_row (q : string) :
  Confidence (row_of q) = snd (scan_of q target_items).
Proof. unfold match_item, make_row. destruct (scan_of q target_items). reflexivity. Qed.

Lemma status_of_row (q : string) :
  Match_Status (row_of q) =
    if Confidence (row_of q) >=? threshold then "Match" else "No Match".
Proof. unfold match_item, make_row. destruct (scan_of q target_items). reflexivity. Qed.

Lemma best_match_of_row (q : string) :
  Best_Match (row_of q) =
    match fst (scan_of q target_items) with
    | Some t => if (t =? "")%string then no_match_found else t
    | None => no_match_found
    end.
Proof.
  unfold match_item, make_row.
  destruct (scan_of q target_items) as [[t |] best_score]; cbn [fst truthy].
  - destruct (t =? "")%string; reflexivity.
  - reflexivity.
Qed.

(** A row with confidence 0 never names a pool item: the scan stores a
    target only together with a positive score. *)
Lemma zero_confidence_reports_sentinel (q : string) :
  Confidence (row_of q) = 0 -> Best_Match (row_of q) = no_match_found.
Proof.
  rewrite confidence_of_row, best_match_of_row.
  destruct (scan_invariant q target_items) as (_ & _ & Hbest).
  destruct (fst (scan_of q target_items)) as [t |]; [| reflexivity].
  destruct Hbest as [Hpos _]. lia.
Qed.

End LoopFacts.

Section LoopClaims.

Variable fuzz : Fuzz.
Variable match_method : string.
Variable threshold : Z.
Variable target_items : list string.

(** ** The claims about the loop *)

(** C1 (as amended). For a non-empty pool without the empty string and
    non-negative scores, the confidence of the row is the largest score in
    the pool; when that score is positive, the reported best match is the
    first pool item reaching it, and no later item with the same score
    takes its place. *)
Theorem best_match_is_first_maximum (q : string) :
  target_items <> [] ->
  (forall t, In t target_items -> 0 <= calc_score fuzz match_method q t) ->
  ~ In "" target_items ->
  (exists t, first_maximum (calc_score fuzz match_method q) target_items t (Confidence (match_item fuzz match_method threshold target_items q))) /\
  (0 < Confidence (match_item fuzz match_method threshold target_items q) ->
   exists t, first_maximum (calc_score fuzz match_method q) target_items t (Confidence (match_item fuzz match_method threshold target_items q)) /\
             Best_Match (match_item fuzz match_method threshold target_items q) = t).
Proof.
  intros Hne Hnonneg Hempty.
  rewrite confidence_of_row, best_match_of_row.
  destruct (scan_invariant fuzz match_method q target_items) as (Hpos & Hle & Hbest).
  destruct (scan fuzz match_method q target_items) as [[t |] best_score]; cbn [fst snd] in *.
  - destruct Hbest as (Hgt & pre & post & Hpool & Hsc & Hpre).
    assert (Hfirst : first_maximum (calc_score fuzz match_method q) target_items t best_score).
    { exists pre, post. repeat split; auto.
      intros u Hu. apply Hle. rewrite Hpool.
      apply in_or_app. right. right. exact Hu. }
    split; [exists t; exact Hfirst |].
    intros _. exists t. split; [exact Hfirst |].
    destruct (String.eqb_spec t "") as [-> | Hnot]; [| reflexivity].
    exfalso. apply Hempty. rewrite Hpool.
    apply in_or_app. right. left. reflexivity.
  - subst best_score. split; [| lia].
    destruct target_items as [| t post]; [congruence |].
    exists t, [], post. repeat split.
    + assert (calc_score fuzz match_method q t <= 0) by (apply Hle; left; reflexivity).
      assert (0 <= calc_score fuzz match_method q t) by (apply Hnonneg; left; reflexivity).
      lia.
    + intros u [].
    + intros u Hu. apply Hle. right. exact Hu.
Qed.

(** C3. A row is labelled Match exactly when its confidence reaches the
    threshold, whatever the threshold is. *)
Theorem status_iff_threshold (main_items : list string) (r : Row) :
  In r (fuzzy_match fuzz match_method threshold target_items main_items) ->
  (Match_Status r = "Match" <-> Confidence r >= threshold).
Proof.
  intro Hin. apply in_fuzzy_match in Hin as (q & _ & ->).
  rewrite status_of_row.
  destruct (Z.geb_spec (Confidence (match_item fuzz match_method threshold target_items q)) threshold) as [Hge | Hlt].
  - split; [lia | reflexivity].
  - split; [discriminate | lia].
Qed.

(** C4. The loop yields one row per main item, in order: the result is as
    long as the query sequence, the i-th row is the row built for the i-th
    item and carries that item, duplicates included and for any pool. *)
Theorem one_result_per_query (main_items : list string) :
  List.length (fuzzy_match fuzz match_method threshold target_items main_items) = List.length main_items /\
  map Main_Item (fuzzy_match fuzz match_method threshold target_items main_items) = main_items /\
  forall i, nth_error (fuzzy_match fuzz match_method threshold target_items main_items) i =
            option_map (match_item fuzz match_method threshold target_items) (nth_error main_items i).
Proof.
  rewrite fuzzy_match_map. split; [apply length_map |]. split.
  - rewrite map_map. rewrite <- (map_id main_items) at 2.
    apply map_ext. apply main_item_of_row.
  - intro i. apply nth_error_map.
Qed.

(** C10. When every pool item scores 0 against the main item, the scan
    never stores a target: the row reports the sentinel with score 0. *)
Theorem zero_scores_report_sentinel (q : string) :
  (forall t, In t target_items -> calc_score fuzz match_method q t = 0) ->
  Best_Match (match_item fuzz match_method threshold target_items q) = no_match_found /\ Confidence (match_item fuzz match_method threshold target_items q) = 0.
Proof.
  intro Hzero.
  assert (Hconf : Confidence (match_item fuzz match_method threshold target_items q) = 0).
  { rewrite confidence_of_row.
    destruct (scan_invariant fuzz match_method q target_items) as (_ & _ & Hbest).
    destruct (scan fuzz match_method q target_items) as [[t |] best_score]; cbn [fst snd] in *.
    - destruct Hbest as (Hgt & pre & post & Hpool & Hsc & _).
      rewrite <- Hsc, Hzero in Hgt; [lia |].
      rewrite Hpool. apply in_or_app. right. left. reflexivity.
    - exact Hbest. }
  split; [| exact Hconf].
  apply zero_confidence_reports_sentinel. exact Hconf.
Qed.

End LoopClaims.

(** ** The columns *)

Lemma mem_string_In (s : string) (l : list string) :
  mem_string s l = true <-> In s l.
Proof.
  unfold mem_string. rewrite existsb_exists. split.
  - intros (x & Hx & Heq). apply String.eqb_eq in Heq. subst x. exact Hx.
  - intro Hin. exists s. split; [exact Hin | apply String.eqb_refl].
Qed.

Lemma unique_from (l seen : list string) :
  NoDup seen ->
  let out := fold_left
               (fun seen s => if mem_string s seen then seen else seen ++ [s])
               l seen in
  NoDup out /\ (forall x, In x out <-> In x seen \/ In x l).
Proof.
  revert seen. induction l as [| s l IH]; intros seen Hnd; cbn [fold_left].
  - split; [exact Hnd |]. intro x. cbn. tauto.
  - destruct (mem_string s seen) eqn:Hmem.
    + apply mem_string_In in Hmem.
      destruct (IH seen Hnd) as [Hout Hin]. split; [exact Hout |].
      intro x. rewrite Hin. cbn [In]. split; [tauto |].
      intros [H | [<- | H]]; auto.
    + assert (Hnot : ~ In s seen).
      { intro Hin. apply mem_string_In in Hin. congruence. }
      assert (Hnd' : NoDup (seen ++ [s])).
      { apply NoDup_app; [exact Hnd | repeat constructor; intros [] |].
        intros x Hx [<- | []]. exact (Hnot Hx). }
      destruct (IH (seen ++ [s]) Hnd') as [Hout Hin]. split; [exact Hout |].
      intro x. rewrite Hin, in_app_iff. cbn [In]. tauto.
Qed.

(** The target pool holds every non-null value of the column once. *)
Lemma unique_NoDup (l : list string) :
  NoDup (unique l) /\ (forall x, In x (unique l) <-> In x l).
Proof.
  destruct (unique_from l [] (NoDup_nil _)) as [Hnd Hin].
  split; [exact Hnd |].
  intro x. unfold unique. rewrite Hin. cbn [In]. tauto.
Qed.

(** Pressing the button yields one row per non-null main item, each scored
    against the deduplicated target column. *)
Lemma run_fuzzy_match_rows (fuzz : Fuzz) (match_method : string) (threshold : Z)
    (main_column target_column : list (option string)) :
  run_fuzzy_match fuzz match_method threshold main_column target_column =
    map (match_item fuzz match_method threshold (unique (dropna target_column)))
        (dropna main_column).
Proof. unfold run_fuzzy_match. apply fuzzy_match_map. Qed.

(** C2 (as amended). With an empty pool every row has the sentinel as best
    match and score 0, for every threshold; its status is No Match for a
    threshold of at least 1, and Match for the threshold 0, where
    [0 >= 0] holds. *)
Theorem empty_pool_result (fuzz : Fuzz) (match_method : string) (threshold : Z)
    (main_items : list string) (r : Row) :
  In r (fuzzy_match fuzz match_method threshold [] main_items) ->
  Best_Match r = no_match_found /\
  Confidence r = 0 /\
  (1 <= threshold -> Match_Status r = "No Match") /\
  (threshold <= 0 -> Match_Status r = "Match").
Proof.
  intro Hin. apply in_fuzzy_match in Hin as (q & _ & ->).
  unfold match_item, scan, best_init. cbn [fold_left make_row truthy].
  cbn [Best_Match Confidence Match_Status].
  repeat split.
  - intro Hthr. destruct (Z.geb_spec 0 threshold); [lia | reflexivity].
  - intro Hthr. destruct (Z.geb_spec 0 threshold); [reflexivity | lia].
Qed.

(** C5. The claim asks for the mean 0 when there is no query. The script
    has no such case: with no main item the frame is built from an empty
    list and has no column, and the metrics stop with the KeyError of the
    first column lookup (line 128) before any mean is taken, for every
    scoring function, method, threshold and pool. *)
Theorem summary_fails_without_queries (fuzz : Fuzz) (match_method : string)
    (threshold : Z) (target_items : list string) :
  fuzzy_match fuzz match_method threshold target_items [] = [] /\
  summary_metrics (fuzzy_match fuzz match_method threshold target_items []) =
    KeyError "Match Status" /\
  forall m,
    summary_metrics (fuzzy_match fuzz match_method threshold target_items []) <> Ok m.
Proof.
  split; [reflexivity |]. split; [reflexivity |].
  intros m Hm. discriminate Hm.
Qed.

(** The mean of an empty column is no number. *)
Lemma mean_of_empty : mean [] = None.
Proof. reflexivity. Qed.

(** * The claims at concrete inputs *)

Section Examples.
Import Scorer.

(** C1 as stated fails when no pool item scores above 0: the largest score
    is 0, its first holder is the pool item, and the row names the
    sentinel instead. *)
Lemma best_match_zero_score_counterexample :
  ["b"] <> [] /\
  ~ (exists t,
       first_maximum (calc_score spec_fuzz "Ratio" "a") ["b"] t
         (Confidence (match_item spec_fuzz "Ratio" 80 ["b"] "a")) /\
       Best_Match (match_item spec_fuzz "Ratio" 80 ["b"] "a") = t).
Proof.
  split; [discriminate |].
  intros (t & (pre & post & Hpool & _) & Hbest).
  vm_compute in Hbest. subst t.
  destruct pre as [| u pre].
  - discriminate Hpool.
  - destruct pre; discriminate Hpool.
Qed.

Lemma best_match_is_first_maximum_witness :
  example_pool <> [] /\
  (forall t, In t example_pool -> 0 <= calc_score spec_fuzz "Ratio" "a" t) /\
  ~ In "" example_pool /\
  (exists t,
     first_maximum (calc_score spec_fuzz "Ratio" "a") example_pool t
       (Confidence (match_item spec_fuzz "Ratio" 80 example_pool "a"))) /\
  (0 < Confidence (match_item spec_fuzz "Ratio" 80 example_pool "a") ->
   exists t,
     first_maximum (calc_score spec_fuzz "Ratio" "a") example_pool t
       (Confidence (match_item spec_fuzz "Ratio" 80 example_pool "a")) /\
     Best_Match (match_item spec_fuzz "Ratio" 80 example_pool "a") = t).
Proof.
  assert (H1 : example_pool <> []) by discriminate.
  assert (H2 : forall t, In t example_pool ->
                         0 <= calc_score spec_fuzz "Ratio" "a" t).
  { intros t [<- | [<- | [<- | []]]]; vm_compute; discriminate. }
  assert (H3 : ~ In "" example_pool).
  { intros [H | [H | [H | []]]]; discriminate H. }
  split; [exact H1 |]. split; [exact H2 |]. split; [exact H3 |].
  exact (best_match_is_first_maximum spec_fuzz "Ratio" 80 example_pool "a" H1 H2 H3).
Defined.

(** The tie of the example is decided for the earlier item: "a" and "A"
    both score 100 against "a", and "a" comes first. *)
Lemma example_row_value :
  example_row =
    {| Main_Item := "a"; Best_Match := "a"; Confidence := 100;
       Match_Status := "Match" |}.
Proof. vm_compute. reflexivity. Qed.

(** Why the pool items are taken to be non-empty strings: an empty string
    stored as best match is false for line 97, and the row shows the
    sentinel next to a positive score. *)
Lemma empty_string_target_reports_sentinel :
  match_item spec_fuzz "Ratio" 80 [""] "" =
    {| Main_Item := ""; Best_Match := "No match found"; Confidence := 100;
       Match_Status := "Match" |}.
Proof. vm_compute. reflexivity. Qed.

(** Word order does not count for Token Sort Ratio. *)
Lemma token_sort_example : score "a b c" "c a b" TokenSortRatio = 100.
Proof. vm_compute. reflexivity. Qed.

(** C2 as stated fails at the threshold 0: the score 0 reaches it, and the
    row is labelled Match. *)
Lemma empty_pool_threshold_zero_counterexample :
  0 <= 0 <= 100 /\
  ~ (forall r, In r (fuzzy_match spec_fuzz "Ratio" 0 [] ["a"]) ->
               Best_Match r = no_match_found /\
               Confidence r = 0 /\
               Match_Status r = "No Match").
Proof.
  split; [lia |].
  intro H.
  destruct (H _ (or_introl eq_refl)) as (_ & _ & Hstatus).
  vm_compute in Hstatus. discriminate Hstatus.
Qed.

Lemma empty_pool_result_witness :
  In empty_pool_row (fuzzy_match spec_fuzz "Ratio" 80 [] example_queries) /\
  Best_Match empty_pool_row = no_match_found /\
  Confidence empty_pool_row = 0 /\
  (1 <= 80 -> Match_Status empty_pool_row = "No Match") /\
  (80 <= 0 -> Match_Status empty_pool_row = "Match").
Proof.
  assert (H : In empty_pool_row (fuzzy_match spec_fuzz "Ratio" 80 [] example_queries)).
  { vm_compute. left. reflexivity. }
  split; [exact H |].
  exact (empty_pool_result spec_fuzz "Ratio" 80 example_queries empty_pool_row H).
Defined.

Lemma status_iff_threshold_witness :
  In example_row (fuzzy_match spec_fuzz "Ratio" 80 example_pool example_queries) /\
  (Match_Status example_row = "Match" <-> Confidence example_row >= 80).
Proof.
  assert (H : In example_row
                (fuzzy_match spec_fuzz "Ratio" 80 example_pool example_queries)).
  { vm_compute. left. reflexivity. }
  split; [exact H |].
  exact (status_iff_threshold spec_fuzz "Ratio" 80 example_pool example_queries
           example_row H).
Defined.

Lemma zero_scores_report_sentinel_witness :
  (forall t, In t example_pool -> calc_score spec_fuzz "Ratio" "zz" t = 0) /\
  Best_Match (match_item spec_fuzz "Ratio" 80 example_pool "zz") = no_match_found /\
  Confidence (match_item spec_fuzz "Ratio" 80 example_pool "zz") = 0.
Proof.
  assert (H : forall t, In t example_pool ->
                        calc_score spec_fuzz "Ratio" "zz" t = 0).
  { intros t [<- | [<- | [<- | []]]]; vm_compute; reflexivity. }
  split; [exact H |].
  exact (zero_scores_report_sentinel spec_fuzz "Ratio" 80 example_pool "zz" H).
Defined.

End Examples.

(** * More about the script *)

Section ScanProperties.

Variable fuzz : Fuzz.
Variable match_method : string.
Variable threshold : Z.

Lemma best_of_nonneg (scores : list Z) : 0 <= best_of scores.
Proof. unfold best_of. induction scores; cbn [fold_right]; lia. Qed.

Lemma best_of_app (xs ys : list Z) :
  best_of (xs ++ ys) = Z.max (best_of xs) (best_of ys).
Proof.
  pose proof (best_of_nonneg ys) as Hys.
  unfold best_of in *. induction xs as [| x xs IH]; cbn [app fold_right]; lia.
Qed.

Lemma best_of_permutation (xs ys : list Z) :
  Permutation xs ys -> best_of xs = best_of ys.
Proof.
  unfold best_of. induction 1; cbn [fold_right]; lia.
Qed.

Lemma scan_best_score (q : string) (targets : list string) :
  snd (scan fuzz match_method q targets) =
    best_of (map (calc_score fuzz match_method q) targets).
Proof.
  induction targets as [| t targets IH] using rev_ind; [reflexivity |].
  rewrite scan_snoc, map_app, best_of_app, <- IH.
  pose proof (scan_invariant fuzz match_method q targets) as (Hpos & _).
  destruct (scan fuzz match_method q targets) as [best_match best_score].
  unfold scan_step, best_of. cbn [map fold_right snd] in *.
  destruct (Z.gtb_spec (calc_score fuzz match_method q t) best_score);
    cbn [snd]; lia.
Qed.

(** X1. The confidence of a row is the largest score of the main item
    against the pool, and 0 when the pool is empty or no score is above 0;
    this holds for any scoring function, also one with negative scores. *)
Theorem confidence_is_best_score (target_items : list string) (q : string) :
  Confidence (match_item fuzz match_method threshold target_items q) =
    best_of (map (calc_score fuzz match_method q) target_items).
Proof. rewrite confidence_of_row. apply scan_best_score. Qed.

Lemma unique_snoc (l : list string) (x : string) :
  unique (l ++ [x]) =
    if mem_string x (unique l) then unique l else unique l ++ [x].
Proof. unfold unique. rewrite fold_left_app. reflexivity. Qed.

Lemma scan_step_no_gain (q : string) (st : Best) (t : string) :
  calc_score fuzz match_method q t <= snd st ->
  scan_step fuzz match_method q st t = st.
Proof.
  destruct st as [best_match best_score]. cbn [snd]. intro Hle.
  unfold scan_step.
  destruct (Z.gtb_spec (calc_score fuzz match_method q t) best_score);
    [lia | reflexivity].
Qed.

Lemma scan_unique (q : string) (l : list string) :
  scan fuzz match_method q (unique l) = scan fuzz match_method q l.
Proof.
  induction l as [| x l IH] using rev_ind; [reflexivity |].
  rewrite unique_snoc, (scan_snoc fuzz match_method q l x).
  destruct (mem_string x (unique l)) eqn:Hmem.
  - rewrite IH. symmetry. apply scan_step_no_gain.
    apply (proj1 (proj2 (scan_invariant fuzz match_method q l))).
    apply (proj2 (unique_NoDup l)). apply mem_string_In. exact Hmem.
  - rewrite scan_snoc, IH. reflexivity.
Qed.

(** X2. Removing the duplicates of the target column (line 60) changes no
    row: scanning a list with repeated items gives the same best match,
    confidence and status as scanning its distinct items in first-occurrence
    order. *)
Theorem unique_pool_same_row (targets : list string) (q : string) :
  match_item fuzz match_method threshold (unique targets) q =
    match_item fuzz match_method threshold targets q.
Proof. unfold match_item. rewrite scan_unique. reflexivity. Qed.

(** X3. The order of the pool matters for ties only: two pools that are
    permutations of each other give every main item the same confidence and
    the same status. *)
Theorem pool_order_keeps_confidence (pool pool' : list string) (q : string) :
  Permutation pool pool' ->
  Confidence (match_item fuzz match_method threshold pool q) =
    Confidence (match_item fuzz match_method threshold pool' q) /\
  Match_Status (match_item fuzz match_method threshold pool q) =
    Match_Status (match_item fuzz match_method threshold pool' q).
Proof.
  intro Hperm.
  assert (Hconf : Confidence (match_item fuzz match_method threshold pool q) =
                  Confidence (match_item fuzz match_method threshold pool' q)).
  { rewrite !confidence_of_row, !scan_best_score.
    apply best_of_permutation, Permutation_map, Hperm. }
  split; [exact Hconf |].
  rewrite !status_of_row, Hconf. reflexivity.
Qed.

(** X4. The best match shown is either the sentinel or an item of the pool
    whose score against the main item is the confidence shown, and that
    confidence is then positive. *)
Theorem best_match_from_pool (target_items : list string) (q : string) :
  Best_Match (match_item fuzz match_method threshold target_items q) = no_match_found \/
  (In (Best_Match (match_item fuzz match_method threshold target_items q)) target_items /\
   calc_score fuzz match_method q
     (Best_Match (match_item fuzz match_method threshold target_items q)) =
     Confidence (match_item fuzz match_method threshold target_items q) /\
   0 < Confidence (match_item fuzz match_method threshold target_items q)).
Proof.
  rewrite confidence_of_row, best_match_of_row.
  destruct (scan_invariant fuzz match_method q target_items) as (_ & _ & Hbest).
  destruct (scan fuzz match_method q target_items) as [[t |] best_score];
    cbn [fst snd] in *; [| left; reflexivity].
  destruct (t =? "")%string; [left; reflexivity | right].
  destruct Hbest as (Hpos & pre & post & -> & Hsc & _).
  repeat split; auto.
  apply in_or_app. right. left. reflexivity.
Qed.

(** X5. The confidence is never negative, whatever the scoring function
    returns, and it stays at or below 100 whenever the scoring function does
    on the pool. *)
Theorem confidence_range (target_items : list string) (q : string) :
  0 <= Confidence (match_item fuzz match_method threshold target_items q) /\
  ((forall t, In t target_items -> calc_score fuzz match_method q t <= 100) ->
   Confidence (match_item fuzz match_method threshold target_items q) <= 100).
Proof.
  rewrite confidence_of_row, scan_best_score.
  split; [apply best_of_nonneg |].
  intro Hmax.
  induction target_items as [| t ts IH]; unfold best_of; cbn [map fold_right].
  - lia.
  - apply Z.max_lub.
    + apply Hmax. left. reflexivity.
    + apply IH. intros u Hu. apply Hmax. right. exact Hu.
Qed.

End ScanProperties.

Section LoopProperties.

Variable fuzz : Fuzz.
Variable match_method : string.
Variable target_items : list string.

(** X6. The threshold decides the status and nothing else: at two
    thresholds a main item gets the same best match and confidence, and a
    row that is a Match at the higher threshold is a Match at the lower
    one. *)
Theorem lower_threshold_keeps_match (threshold threshold' : Z) (q : string) :
  threshold <= threshold' ->
  Main_Item (match_item fuzz match_method threshold target_items q) =
    Main_Item (match_item fuzz match_method threshold' target_items q) /\
  Best_Match (match_item fuzz match_method threshold target_items q) =
    Best_Match (match_item fuzz match_method threshold' target_items q) /\
  Confidence (match_item fuzz match_method threshold target_items q) =
    Confidence (match_item fuzz match_method threshold' target_items q) /\
  (Match_Status (match_item fuzz match_method threshold' target_items q) = "Match" ->
   Match_Status (match_item fuzz match_method threshold target_items q) = "Match").
Proof.
  intro Hle.
  rewrite !main_item_of_row, !best_match_of_row, !status_of_row, !confidence_of_row.
  repeat split.
  destruct (Z.geb_spec (snd (scan fuzz match_method q target_items)) threshold');
    [| discriminate].
  destruct (Z.geb_spec (snd (scan fuzz match_method q target_items)) threshold);
    [reflexivity | lia].
Qed.

(** X7. With the threshold at 0 (or below) every row is a Match, whatever
    the pool and the scores are, the rows whose best match is the sentinel
    included. *)
Theorem threshold_zero_all_match (threshold : Z) (main_items : list string) :
  threshold <= 0 ->
  Forall (fun r => Match_Status r = "Match")
    (fuzzy_match fuzz match_method threshold target_items main_items).
Proof.
  intro Hthr. apply Forall_forall. intros r Hin.
  apply in_fuzzy_match in Hin as (q & _ & ->).
  rewrite status_of_row, confidence_of_row.
  pose proof (scan_invariant fuzz match_method q target_items) as (Hpos & _).
  destruct (Z.geb_spec (snd (scan fuzz match_method q target_items)) threshold);
    [reflexivity | lia].
Qed.

(** X8. Matching a main column made of two parts gives the rows of the first
    part followed by the rows of the second: no row depends on the other
    main items. *)
Theorem fuzzy_match_app (threshold : Z) (main_items main_items' : list string) :
  fuzzy_match fuzz match_method threshold target_items (main_items ++ main_items') =
    fuzzy_match fuzz match_method threshold target_items main_items ++
    fuzzy_match fuzz match_method threshold target_items main_items'.
Proof. rewrite !fuzzy_match_map. apply map_app. Qed.

(** X9. The progress bar is created with the value 0 and then gets one
    value per main item, the fractions 1/n, 2/n, ..., n/n for n main items,
    in this order: the divisor of line 103 is never 0, and no fraction is
    above 1. *)
Theorem progress_values (threshold : Z) (main_items : list string) :
  progress (loop fuzz match_method threshold target_items main_items) =
    Bar_zero ::
    map (fun i => Bar_fraction i (List.length main_items))
      (seq 1 (List.length main_items)) /\
  (forall i n,
     In (Bar_fraction i n)
        (progress (loop fuzz match_method threshold target_items main_items)) ->
     (1 <= i <= n)%nat /\ n = List.length main_items).
Proof.
  assert (Hp : progress (loop fuzz match_method threshold target_items main_items) =
               Bar_zero ::
               map (fun i => Bar_fraction i (List.length main_items))
                 (seq 1 (List.length main_items))).
  { unfold loop, enumerate. rewrite loop_from. cbn [progress loop_init app].
    rewrite <- seq_shift, map_map. reflexivity. }
  split; [exact Hp |].
  intros i n Hin. rewrite Hp in Hin.
  destruct Hin as [Hin | Hin]; [discriminate Hin |].
  apply in_map_iff in Hin as (j & Heq & Hj). apply in_seq in Hj.
  injection Heq as <- <-. lia.
Qed.

End LoopProperties.

Section ResultProperties.

Variable fuzz : Fuzz.
Variable match_method : string.
Variable threshold : Z.
Variable target_items : list string.

(** ** Columns and masks *)

Lemma boolean_index_filter (test : string -> bool) (rows : list Row) :
  boolean_index rows (map test (map Match_Status rows)) =
    filter (fun r => test (Match_Status r)) rows.
Proof.
  unfold boolean_index. induction rows as [| r rows IH]; [reflexivity |].
  cbn [map combine filter snd]. destruct (test (Match_Status r)); cbn [map fst].
  - f_equal. exact IH.
  - exact IH.
Qed.

Lemma row_status_by_confidence (main_items : list string) (r : Row) :
  In r (fuzzy_match fuzz match_method threshold target_items main_items) ->
  Match_Status r = if Confidence r >=? threshold then "Match" else "No Match".
Proof.
  intro Hin. apply in_fuzzy_match in Hin as (q & _ & ->). apply status_of_row.
Qed.

Lemma matches_filter (main_items : list string) :
  filter (fun r => (Match_Status r =? "Match")%string)
    (fuzzy_match fuzz match_method threshold target_items main_items) =
  filter (fun r => Confidence r >=? threshold)
    (fuzzy_match fuzz match_method threshold target_items main_items).
Proof.
  apply filter_ext_in. intros r Hin.
  rewrite (row_status_by_confidence main_items r Hin).
  destruct (Confidence r >=? threshold); reflexivity.
Qed.

Lemma no_matches_filter (main_items : list string) :
  filter (fun r => (Match_Status r =? "No Match")%string)
    (fuzzy_match fuzz match_method threshold target_items main_items) =
  filter (fun r => negb (Confidence r >=? threshold))
    (fuzzy_match fuzz match_method threshold target_items main_items).
Proof.
  apply filter_ext_in. intros r Hin.
  rewrite (row_status_by_confidence main_items r Hin).
  destruct (Confidence r >=? threshold); reflexivity.
Qed.

Lemma fuzzy_match_nonempty (main_items : list string) :
  main_items <> [] ->
  exists r rows,
    fuzzy_match fuzz match_method threshold target_items main_items = r :: rows.
Proof.
  intro Hne. rewrite fuzzy_match_map.
  destruct main_items as [| q qs]; [congruence |].
  cbn [map]. eauto.
Qed.

(** The metrics of a frame with at least one row, written with filters. *)
Lemma summary_metrics_value (rows : list Row) :
  rows <> [] ->
  summary_metrics rows =
    Ok {| Total_Items := List.length rows;
          Matches_Found :=
            List.length (filter (fun r => (Match_Status r =? "Match")%string) rows);
          No_Matches :=
            List.length (filter (fun r => (Match_Status r =? "No Match")%string) rows);
          Avg_Confidence := mean (map Confidence rows) |}.
Proof.
  intro Hne. destruct rows as [| r rows]; [congruence |].
  unfold summary_metrics, column, bind. cbv beta iota zeta.
  rewrite !boolean_index_filter. reflexivity.
Qed.

(** X10. For a main column with at least one item the metrics are computed;
    the total is the number of main items, the matches are the rows whose
    confidence reaches the threshold, and matches and no-matches add up to
    the total. *)
Theorem summary_counts (main_items : list string) :
  main_items <> [] ->
  exists m,
    summary_metrics (fuzzy_match fuzz match_method threshold target_items main_items) = Ok m /\
    Total_Items m = List.length main_items /\
    Matches_Found m =
      List.length (filter (fun r => Confidence r >=? threshold)
        (fuzzy_match fuzz match_method threshold target_items main_items)) /\
    (Matches_Found m + No_Matches m = Total_Items m)%nat.
Proof.
  intro Hne.
  destruct (fuzzy_match_nonempty main_items Hne) as (r & rows & Hrows).
  eexists. split.
  - apply summary_metrics_value. rewrite Hrows. discriminate.
  - cbn [Total_Items Matches_Found No_Matches].
    rewrite matches_filter, no_matches_filter, filter_length.
    repeat split.
    rewrite fuzzy_match_map. apply length_map.
Qed.

Lemma sum_Z_bounds (xs : list Z) :
  (forall x, In x xs -> 0 <= x <= 100) ->
  0 <= sum_Z xs <= 100 * Z.of_nat (List.length xs).
Proof.
  unfold sum_Z. induction xs as [| x xs IH]; intro H.
  - cbn. lia.
  - assert (0 <= x <= 100) by (apply H; left; reflexivity).
    assert (0 <= fold_right Z.add 0 xs <= 100 * Z.of_nat (List.length xs))
      by (apply IH; intros y Hy; apply H; right; exact Hy).
    cbn [fold_right List.length]. lia.
Qed.

Lemma best_of_upper (bound : Z) (scores : list Z) :
  0 <= bound -> (forall x, In x scores -> x <= bound) -> best_of scores <= bound.
Proof.
  intros Hb H. unfold best_of.
  induction scores as [| x xs IH]; cbn [fold_right]; [exact Hb |].
  apply Z.max_lub.
  - apply H. left. reflexivity.
  - apply IH. intros y Hy. apply H. right. exact Hy.
Qed.

(** X11. When the scoring function stays at or below 100, the average
    confidence shown for a non-empty main column lies between 0 and 100. *)
Theorem average_confidence_range (main_items : list string) :
  main_items <> [] ->
  (forall q t, In q main_items -> In t target_items ->
               calc_score fuzz match_method q t <= 100) ->
  exists m avg,
    summary_metrics (fuzzy_match fuzz match_method threshold target_items main_items) = Ok m /\
    Avg_Confidence m = Some avg /\
    (0 <= avg /\ avg <= 100)%Q.
Proof.
  intros Hne Hmax.
  destruct (fuzzy_match_nonempty main_items Hne) as (r & rows & Hrows).
  assert (Hbounds : forall x,
            In x (map Confidence
                    (fuzzy_match fuzz match_method threshold target_items main_items)) ->
            0 <= x <= 100).
  { intros x Hx. apply in_map_iff in Hx as (r' & <- & Hr').
    apply in_fuzzy_match in Hr' as (q & Hq & ->).
    rewrite confidence_of_row, scan_best_score. split.
    - apply best_of_nonneg.
    - apply best_of_upper; [lia |].
      intros y Hy. apply in_map_iff in Hy as (t & <- & Ht). auto. }
  apply sum_Z_bounds in Hbounds.
  rewrite Hrows in Hbounds |- *. cbn [map] in Hbounds.
  rewrite summary_metrics_value by discriminate.
  eexists. eexists. split; [reflexivity |].
  cbn [Avg_Confidence map mean]. split; [reflexivity |].
  remember (sum_Z (Confidence r :: map Confidence rows)) as total eqn:Htotal.
  remember (Z.of_nat (List.length (Confidence r :: map Confidence rows)))
    as n eqn:Hcount.
  assert (Hn : 0 < n) by (subst n; cbn [List.length]; lia).
  clear Htotal Hcount.
  assert (HnQ : (0 < inject_Z n)%Q) by (unfold Qlt; cbn; lia).
  split.
  - apply Qle_shift_div_l; [exact HnQ |].
    unfold Qle. cbn [Qnum Qden Qmult inject_Z]. lia.
  - apply Qle_shift_div_r; [exact HnQ |].
    unfold Qle. cbn [Qnum Qden Qmult inject_Z]. lia.
Qed.

Lemma filter_partition_permutation (A : Type) (f : A -> bool) (l : list A) :
  Permutation (filter f l ++ filter (fun x => negb (f x)) l) l.
Proof.
  induction l as [| x l IH]; [constructor |].
  cbn [filter]. destruct (f x); cbn [negb app].
  - constructor. exact IH.
  - apply Permutation_sym, Permutation_cons_app, Permutation_sym, IH.
Qed.

(** X12. The two filtering options split the result: "Matches Only" keeps,
    in order, the rows whose confidence reaches the threshold, "No Matches
    Only" keeps the other rows, every row is in exactly one of the two
    views, and any other option shows all rows. *)
Theorem filter_views_partition (main_items : list string) :
  main_items <> [] ->
  display_df "Matches Only"
    (fuzzy_match fuzz match_method threshold target_items main_items) =
    Ok (filter (fun r => Confidence r >=? threshold)
          (fuzzy_match fuzz match_method threshold target_items main_items)) /\
  display_df "No Matches Only"
    (fuzzy_match fuzz match_method threshold target_items main_items) =
    Ok (filter (fun r => negb (Confidence r >=? threshold))
          (fuzzy_match fuzz match_method threshold target_items main_items)) /\
  display_df "All"
    (fuzzy_match fuzz match_method threshold target_items main_items) =
    Ok (fuzzy_match fuzz match_method threshold target_items main_items) /\
  Permutation
    (filter (fun r => Confidence r >=? threshold)
       (fuzzy_match fuzz match_method threshold target_items main_items) ++
     filter (fun r => negb (Confidence r >=? threshold))
       (fuzzy_match fuzz match_method threshold target_items main_items))
    (fuzzy_match fuzz match_method threshold target_items main_items).
Proof.
  intro Hne.
  destruct (fuzzy_match_nonempty main_items Hne) as (r & rows & Hrows).
  rewrite <- matches_filter, <- no_matches_filter.
  unfold display_df. cbn [String.eqb Ascii.eqb Bool.eqb].
  unfold column, bind. rewrite Hrows. cbv beta iota zeta.
  rewrite !boolean_index_filter.
  repeat split.
  rewrite <- Hrows, matches_filter, no_matches_filter.
  apply filter_partition_permutation.
Qed.

(** X13. The cell of 'Match Status' is always styled: green for a row whose
    confidence reaches the threshold and pink otherwise, so the unstyled
    case of the lambda of line 157 never applies to a row of the result. *)
Theorem status_always_styled (main_items : list string) :
  Forall (fun r =>
            status_style (Match_Status r) =
              if Confidence r >=? threshold
              then "background-color: #90EE90"
              else "background-color: #FFB6C6")
    (fuzzy_match fuzz match_method threshold target_items main_items).
Proof.
  apply Forall_forall. intros r Hin.
  rewrite (row_status_by_confidence main_items r Hin).
  destruct (Confidence r >=? threshold); reflexivity.
Qed.

End ResultProperties.

Lemma show_results_warning (display : list Row) :
  show_results display = Warning "No results match the selected filter." <->
  List.length display = 0%nat.
Proof.
  unfold show_results. destruct display as [| r rows]; cbn [List.length Nat.ltb Nat.leb].
  - tauto.
  - split; [discriminate | lia].
Qed.

Lemma display_df_value (filter_option : string) (rows : list Row) :
  rows <> [] ->
  display_df filter_option rows =
    Ok (if (filter_option =? "Matches Only")%string
        then filter (fun r => (Match_Status r =? "Match")%string) rows
        else if (filter_option =? "No Matches Only")%string
        then filter (fun r => (Match_Status r =? "No Match")%string) rows
        else rows).
Proof.
  intro Hne. destruct rows as [| r rows]; [congruence |].
  unfold display_df, column, bind. cbv beta iota zeta.
  rewrite !boolean_index_filter.
  destruct (filter_option =? "Matches Only")%string; [reflexivity |].
  destruct (filter_option =? "No Matches Only")%string; reflexivity.
Qed.

(** X14. For a non-empty main column the results section is always built,
    and it shows the warning instead of the table exactly when a filtering
    option is selected and its count in the metrics is 0; with "All" the
    table is always shown. *)
Theorem warning_only_for_empty_view (fuzz : Fuzz) (match_method : string)
    (threshold : Z) (target_items main_items : list string)
    (filter_option : string) :
  main_items <> [] ->
  exists m shown,
    results_section filter_option
      (fuzzy_match fuzz match_method threshold target_items main_items) =
      Ok (m, shown) /\
    (shown = Warning "No results match the selected filter." <->
     (filter_option = "Matches Only" /\ Matches_Found m = 0%nat) \/
     (filter_option = "No Matches Only" /\ No_Matches m = 0%nat)).
Proof.
  intro Hne.
  destruct (fuzzy_match_nonempty fuzz match_method threshold target_items
              main_items Hne) as (r & rows & Hrows).
  rewrite Hrows. unfold results_section.
  rewrite summary_metrics_value, display_df_value by discriminate.
  cbn [bind]. eexists. eexists. split; [reflexivity |].
  cbn [Matches_Found No_Matches].
  rewrite show_results_warning.
  destruct (String.eqb_spec filter_option "Matches Only") as [-> | Hm].
  - split; [intro H; left; split; [reflexivity | exact H] |].
    intros [[_ H] | [Hopt _]]; [exact H | discriminate Hopt].
  - destruct (String.eqb_spec filter_option "No Matches Only") as [-> | Hn].
    + split; [intro H; right; split; [reflexivity | exact H] |].
      intros [[Hopt _] | [_ H]]; [discriminate Hopt | exact H].
    + split; [discriminate |].
      intros [[Hopt _] | [Hopt _]]; contradiction.
Qed.

(** ** The columns and the session *)

Lemma dropna_In (column : list (option string)) (s : string) :
  In s (dropna column) <-> In (Some s) column.
Proof.
  unfold dropna. rewrite in_flat_map. split.
  - intros ([x |] & Hin & Hs); cbn in Hs; [| tauto].
    destruct Hs as [<- | []]. exact Hin.
  - intro Hin. exists (Some s). split; [exact Hin | left; reflexivity].
Qed.

Lemma dropna_nil (column : list (option string)) :
  dropna column = [] <-> (forall cell, In cell column -> cell = None).
Proof.
  split.
  - intros Hnil [s |] Hin; [| reflexivity].
    apply dropna_In in Hin. rewrite Hnil in Hin. destruct Hin.
  - intro Hall. destruct (dropna column) as [| s rest] eqn:Hd; [reflexivity |].
    assert (Hin : In s (dropna column)) by (rewrite Hd; left; reflexivity).
    apply dropna_In, Hall in Hin. discriminate Hin.
Qed.

(** X15. The metrics fail with the KeyError of the 'Match Status' lookup
    exactly when the main column has no non-null cell, and they are computed
    exactly when it has one. *)
Theorem metrics_fail_iff_no_main_item (fuzz : Fuzz) (match_method : string)
    (threshold : Z) (main_column target_column : list (option string)) :
  (summary_metrics
     (run_fuzzy_match fuzz match_method threshold main_column target_column) =
     KeyError "Match Status" <->
   (forall cell, In cell main_column -> cell = None)) /\
  ((exists m,
      summary_metrics
        (run_fuzzy_match fuzz match_method threshold main_column target_column) =
        Ok m) <->
   (exists s, In (Some s) main_column)).
Proof.
  rewrite <- dropna_nil. unfold run_fuzzy_match. rewrite fuzzy_match_map.
  destruct (dropna main_column) as [| q qs] eqn:Hd.
  - split.
    + split; reflexivity.
    + split.
      * intros (m & Hm). discriminate Hm.
      * intros (s & Hs). apply dropna_In in Hs. rewrite Hd in Hs. destruct Hs.
  - cbn [map]. rewrite summary_metrics_value by discriminate. split.
    + split; discriminate.
    + split; [| eauto].
      intros _. exists q. apply dropna_In. rewrite Hd. left. reflexivity.
Qed.

(** X16. Every row comes from the uploaded columns: its main item is a
    non-null cell of the main column, and its best match is the sentinel or
    a non-null cell of the target column. *)
Theorem rows_come_from_columns (fuzz : Fuzz) (match_method : string)
    (threshold : Z) (main_column target_column : list (option string)) (r : Row) :
  In r (run_fuzzy_match fuzz match_method threshold main_column target_column) ->
  In (Some (Main_Item r)) main_column /\
  (Best_Match r = no_match_found \/ In (Some (Best_Match r)) target_column).
Proof.
  unfold run_fuzzy_match. intro Hin.
  apply in_fuzzy_match in Hin as (q & Hq & ->).
  rewrite main_item_of_row, best_match_of_row. split.
  - apply dropna_In. exact Hq.
  - destruct (scan_invariant fuzz match_method q (unique (dropna target_column)))
      as (_ & _ & Hbest).
    destruct (scan fuzz match_method q (unique (dropna target_column)))
      as [[t |] best_score]; cbn [fst snd] in *; [| left; reflexivity].
    destruct (t =? "")%string; [left; reflexivity | right].
    destruct Hbest as (_ & pre & post & Hpool & _).
    apply dropna_In. apply (proj2 (unique_NoDup (dropna target_column))).
    rewrite Hpool. apply in_or_app. right. left. reflexivity.
Qed.

(** X17. The target pool of line 60 holds every non-null cell of the target
    column exactly once. *)
Theorem target_pool_distinct (target_column : list (option string)) :
  NoDup (unique (dropna target_column)) /\
  (forall s, In s (unique (dropna target_column)) <-> In (Some s) target_column).
Proof.
  destruct (unique_NoDup (dropna target_column)) as [Hnd Hin].
  split; [exact Hnd |].
  intro s. rewrite Hin. apply dropna_In.
Qed.

(** X18. A list without duplicates is left as it is, order included. *)
Theorem unique_of_distinct (l : list string) :
  NoDup l -> unique l = l.
Proof.
  induction l as [| x l IH] using rev_ind; intro Hnd; [reflexivity |].
  rewrite unique_snoc.
  apply NoDup_remove in Hnd. rewrite app_nil_r in Hnd.
  destruct Hnd as [Hnd Hnot].
  rewrite (IH Hnd).
  destruct (mem_string x l) eqn:Hmem; [| reflexivity].
  apply mem_string_In in Hmem. contradiction.
Qed.

(** X19. The rows stored when the button is pressed are what a later run
    without the button shows: the columns, method and threshold selected in
    the later run do not enter, so the statuses shown still follow the
    threshold that was set when the button was pressed. *)
Theorem stored_results_survive_rerun (fuzz : Fuzz) (w w' : Widgets)
    (session : Session) :
  run_button w = true ->
  run_button w' = false ->
  fst (script fuzz (Some w) session) =
    Some (run_fuzzy_match fuzz (sel_match_method w) (sel_threshold w)
            (sel_main_column w) (sel_target_column w)) /\
  script fuzz (Some w') (fst (script fuzz (Some w) session)) =
    (fst (script fuzz (Some w) session),
     Some (results_section (sel_filter w')
             (run_fuzzy_match fuzz (sel_match_method w) (sel_threshold w)
                (sel_main_column w) (sel_target_column w)))) /\
  Forall (fun r => Match_Status r = "Match" <-> Confidence r >= sel_threshold w)
    (run_fuzzy_match fuzz (sel_match_method w) (sel_threshold w)
       (sel_main_column w) (sel_target_column w)).
Proof.
  intros Hw Hw'. unfold script. rewrite Hw, Hw'. cbn [fst option_map].
  split; [reflexivity |]. split; [reflexivity |].
  apply Forall_forall. intros r Hin. unfold run_fuzzy_match in Hin.
  rewrite (row_status_by_confidence _ _ _ _ _ _ Hin).
  destruct (Z.geb_spec (Confidence r) (sel_threshold w)); split; intro Hs;
    try reflexivity; try discriminate Hs; lia.
Qed.

(** X20. Pressing the button on a main column with null cells only stores
    an empty result: that run ends in the KeyError of the 'Match Status'
    lookup, and so does every later run made without pressing the button. *)
Theorem empty_result_fails_every_rerun (fuzz : Fuzz) (w w' : Widgets)
    (session : Session) :
  run_button w = true ->
  (forall cell, In cell (sel_main_column w) -> cell = None) ->
  run_button w' = false ->
  snd (script fuzz (Some w) session) = Some (KeyError "Match Status") /\
  snd (script fuzz (Some w') (fst (script fuzz (Some w) session))) =
    Some (KeyError "Match Status").
Proof.
  intros Hw Hnull Hw'. apply dropna_nil in Hnull.
  unfold script. rewrite Hw, Hw'. cbn [fst snd option_map].
  unfold run_fuzzy_match. rewrite Hnull. split; reflexivity.
Qed.

Lemma scan_extend (fuzz : Fuzz) (match_method q : string)
    (targets more : list string) :
  snd (scan fuzz match_method q targets) <=
    snd (scan fuzz match_method q (targets ++ more)) /\
  (snd (scan fuzz match_method q (targets ++ more)) =
     snd (scan fuzz match_method q targets) ->
   scan fuzz match_method q (targets ++ more) = scan fuzz match_method q targets).
Proof.
  induction more as [| t more IH] using rev_ind.
  - rewrite app_nil_r. split; [lia | reflexivity].
  - rewrite app_assoc, scan_snoc.
    destruct IH as [Hle Hsame].
    destruct (scan fuzz match_method q (targets ++ more)) as [best_match best_score].
    cbn [snd] in *. unfold scan_step.
    destruct (Z.gtb_spec (calc_score fuzz match_method q t) best_score);
      cbn [snd].
    + split; [lia |]. intro Heq. lia.
    + split; [exact Hle | exact Hsame].
Qed.

(** X21. Adding items at the end of the pool never lowers the confidence of
    a main item, and its best match changes only when the confidence rises:
    with an unchanged confidence the row is the same. *)
Theorem more_targets_keep_or_improve (fuzz : Fuzz) (match_method : string)
    (threshold : Z) (targets more : list string) (q : string) :
  Confidence (match_item fuzz match_method threshold targets q) <=
    Confidence (match_item fuzz match_method threshold (targets ++ more) q) /\
  (Confidence (match_item fuzz match_method threshold (targets ++ more) q) =
     Confidence (match_item fuzz match_method threshold targets q) ->
   match_item fuzz match_method threshold (targets ++ more) q =
     match_item fuzz match_method threshold targets q).
Proof.
  rewrite !confidence_of_row.
  destruct (scan_extend fuzz match_method q targets more) as [Hle Hsame].
  split; [exact Hle |].
  intro Heq. unfold match_item. rewrite (Hsame Heq). reflexivity.
Qed.

(** * The further properties at concrete inputs *)

Section MoreExamples.
Import Scorer.

Lemma pool_order_keeps_confidence_witness :
  (Permutation example_pool (rev example_pool)) /\
  (Confidence (match_item spec_fuzz "Ratio" 80 example_pool "a") =
    Confidence (match_item spec_fuzz "Ratio" 80 (rev example_pool) "a") /\
  Match_Status (match_item spec_fuzz "Ratio" 80 example_pool "a") =
    Match_Status (match_item spec_fuzz "Ratio" 80 (rev example_pool) "a")).
Proof.
  assert (H1 : Permutation example_pool (rev example_pool)).
  { apply Permutation_rev. }
  split; [exact H1 |].
  exact (pool_order_keeps_confidence spec_fuzz "Ratio" 80 example_pool (rev example_pool) "a" H1).
Defined.

Lemma confidence_range_witness :
  (forall t, In t example_pool -> calc_score spec_fuzz "Ratio" "a" t <= 100) /\
  0 <= Confidence (match_item spec_fuzz "Ratio" 80 example_pool "a") /\
  Confidence (match_item spec_fuzz "Ratio" 80 example_pool "a") <= 100.
Proof.
  assert (H1 : forall t, In t example_pool ->
                         calc_score spec_fuzz "Ratio" "a" t <= 100).
  { intros t [<- | [<- | [<- | []]]]; vm_compute; intro Hc; discriminate Hc. }
  split; [exact H1 |].
  split.
  - exact (proj1 (confidence_range spec_fuzz "Ratio" 80 example_pool "a")).
  - exact (proj2 (confidence_range spec_fuzz "Ratio" 80 example_pool "a") H1).
Defined.

Lemma lower_threshold_keeps_match_witness :
  (50 <= 80) /\
  (Main_Item (match_item spec_fuzz "Ratio" 50 example_pool "a") =
    Main_Item (match_item spec_fuzz "Ratio" 80 example_pool "a") /\
  Best_Match (match_item spec_fuzz "Ratio" 50 example_pool "a") =
    Best_Match (match_item spec_fuzz "Ratio" 80 example_pool "a") /\
  Confidence (match_item spec_fuzz "Ratio" 50 example_pool "a") =
    Confidence (match_item spec_fuzz "Ratio" 80 example_pool "a") /\
  (Match_Status (match_item spec_fuzz "Ratio" 80 example_pool "a") = "Match" ->
   Match_Status (match_item spec_fuzz "Ratio" 50 example_pool "a") = "Match")).
Proof.
  assert (H1 : 50 <= 80).
  { lia. }
  split; [exact H1 |].
  exact (lower_threshold_keeps_match spec_fuzz "Ratio" example_pool 50 80 "a" H1).
Defined.

Lemma threshold_zero_all_match_witness :
  (0 <= 0) /\
  (Forall (fun r => Match_Status r = "Match")
    (fuzzy_match spec_fuzz "Ratio" 0 example_pool example_queries)).
Proof.
  assert (H1 : 0 <= 0).
  { lia. }
  split; [exact H1 |].
  exact (threshold_zero_all_match spec_fuzz "Ratio" example_pool 0 example_queries H1).
Defined.

Lemma summary_counts_witness :
  (example_queries <> []) /\
  (exists m,
    summary_metrics (fuzzy_match spec_fuzz "Ratio" 80 example_pool example_queries) = Ok m /\
    Total_Items m = List.length example_queries /\
    Matches_Found m =
      List.length (filter (fun r => Confidence r >=? 80)
        (fuzzy_match spec_fuzz "Ratio" 80 example_pool example_queries)) /\
    (Matches_Found m + No_Matches m = Total_Items m)%nat).
Proof.
  assert (H1 : example_queries <> []).
  { discriminate. }
  split; [exact H1 |].
  exact (summary_counts spec_fuzz "Ratio" 80 example_pool example_queries H1).
Defined.

Lemma average_confidence_range_witness :
  (example_queries <> []) /\
  ((forall q t, In q example_queries -> In t example_pool ->
               calc_score spec_fuzz "Ratio" q t <= 100)) /\
  (exists m avg,
    summary_metrics (fuzzy_match spec_fuzz "Ratio" 80 example_pool example_queries) = Ok m /\
    Avg_Confidence m = Some avg /\
    (0 <= avg /\ avg <= 100)%Q).
Proof.
  assert (H1 : example_queries <> []).
  { discriminate. }
  assert (H2 : (forall q t, In q example_queries -> In t example_pool ->
               calc_score spec_fuzz "Ratio" q t <= 100)).
  { intros q t [<- | [<- | [<- | []]]] [<- | [<- | [<- | []]]];
      vm_compute; intro Hc; discriminate Hc. }
  split; [exact H1 |].
  split; [exact H2 |].
  exact (average_confidence_range spec_fuzz "Ratio" 80 example_pool example_queries H1 H2).
Defined.

Lemma filter_views_partition_witness :
  (example_queries <> []) /\
  (display_df "Matches Only"
    (fuzzy_match spec_fuzz "Ratio" 80 example_pool example_queries) =
    Ok (filter (fun r => Confidence r >=? 80)
          (fuzzy_match spec_fuzz "Ratio" 80 example_pool example_queries)) /\
  display_df "No Matches Only"
    (fuzzy_match spec_fuzz "Ratio" 80 example_pool example_queries) =
    Ok (filter (fun r => negb (Confidence r >=? 80))
          (fuzzy_match spec_fuzz "Ratio" 80 example_pool example_queries)) /\
  display_df "All"
    (fuzzy_match spec_fuzz "Ratio" 80 example_pool example_queries) =
    Ok (fuzzy_match spec_fuzz "Ratio" 80 example_pool example_queries) /\
  Permutation
    (filter (fun r => Confidence r >=? 80)
       (fuzzy_match spec_fuzz "Ratio" 80 example_pool example_queries) ++
     filter (fun r => negb (Confidence r >=? 80))
       (fuzzy_match spec_fuzz "Ratio" 80 example_pool example_queries))
    (fuzzy_match spec_fuzz "Ratio" 80 example_pool example_queries)).
Proof.
  assert (H1 : example_queries <> []).
  { discriminate. }
  split; [exact H1 |].
  exact (filter_views_partition spec_fuzz "Ratio" 80 example_pool example_queries H1).
Defined.

Lemma warning_only_for_empty_view_witness :
  (example_queries <> []) /\
  (exists m shown,
    results_section "Matches Only"
      (fuzzy_match spec_fuzz "Ratio" 80 example_pool example_queries) =
      Ok (m, shown) /\
    (shown = Warning "No results match the selected filter." <->
     ("Matches Only" = "Matches Only" /\ Matches_Found m = 0%nat) \/
     ("Matches Only" = "No Matches Only" /\ No_Matches m = 0%nat))).
Proof.
  assert (H1 : example_queries <> []).
  { discriminate. }
  split; [exact H1 |].
  exact (warning_only_for_empty_view spec_fuzz "Ratio" 80 example_pool example_queries "Matches Only" H1).
Defined.

Lemma rows_come_from_columns_witness :
  (In example_row (run_fuzzy_match spec_fuzz "Ratio" 80 (sel_main_column example_widgets) (sel_target_column example_widgets))) /\
  (In (Some (Main_Item example_row)) (sel_main_column example_widgets) /\
  (Best_Match example_row = no_match_found \/ In (Some (Best_Match example_row)) (sel_target_column example_widgets))).
Proof.
  assert (H1 : In example_row (run_fuzzy_match spec_fuzz "Ratio" 80 (sel_main_column example_widgets) (sel_target_column example_widgets))).
  { vm_compute. left. reflexivity. }
  split; [exact H1 |].
  exact (rows_come_from_columns spec_fuzz "Ratio" 80 (sel_main_column example_widgets) (sel_target_column example_widgets) example_row H1).
Defined.

Lemma unique_of_distinct_witness :
  (NoDup example_pool) /\
  (unique example_pool = example_pool).
Proof.
  assert (H1 : NoDup example_pool).
  { repeat constructor; cbn [In]; intros Hin;
      repeat (destruct Hin as [Hin | Hin]; [discriminate Hin |]); exact Hin. }
  split; [exact H1 |].
  exact (unique_of_distinct example_pool H1).
Defined.

Lemma stored_results_survive_rerun_witness :
  (run_button example_widgets = true) /\
  (run_button example_widgets_later = false) /\
  (fst (script spec_fuzz (Some example_widgets) None) =
    Some (run_fuzzy_match spec_fuzz (sel_match_method example_widgets) (sel_threshold example_widgets)
            (sel_main_column example_widgets) (sel_target_column example_widgets)) /\
  script spec_fuzz (Some example_widgets_later) (fst (script spec_fuzz (Some example_widgets) None)) =
    (fst (script spec_fuzz (Some example_widgets) None),
     Some (results_section (sel_filter example_widgets_later)
             (run_fuzzy_match spec_fuzz (sel_match_method example_widgets) (sel_threshold example_widgets)
                (sel_main_column example_widgets) (sel_target_column example_widgets)))) /\
  Forall (fun r => Match_Status r = "Match" <-> Confidence r >= sel_threshold example_widgets)
    (run_fuzzy_match spec_fuzz (sel_match_method example_widgets) (sel_threshold example_widgets)
       (sel_main_column example_widgets) (sel_target_column example_widgets))).
Proof.
  assert (H1 : run_button example_widgets = true).
  { reflexivity. }
  assert (H2 : run_button example_widgets_later = false).
  { reflexivity. }
  split; [exact H1 |].
  split; [exact H2 |].
  exact (stored_results_survive_rerun spec_fuzz example_widgets example_widgets_later None H1 H2).
Defined.

Lemma empty_result_fails_every_rerun_witness :
  (run_button null_widgets = true) /\
  ((forall cell, In cell (sel_main_column null_widgets) -> cell = None)) /\
  (run_button example_widgets_later = false) /\
  (snd (script spec_fuzz (Some null_widgets) None) = Some (KeyError "Match Status") /\
  snd (script spec_fuzz (Some example_widgets_later) (fst (script spec_fuzz (Some null_widgets) None))) =
    Some (KeyError "Match Status")).
Proof.
  assert (H1 : run_button null_widgets = true).
  { reflexivity. }
  assert (H2 : (forall cell, In cell (sel_main_column null_widgets) -> cell = None)).
  { intros cell [<- | [<- | []]]; reflexivity. }
  assert (H3 : run_button example_widgets_later = false).
  { reflexivity. }
  split; [exact H1 |].
  split; [exact H2 |].
  split; [exact H3 |].
  exact (empty_result_fails_every_rerun spec_fuzz null_widgets example_widgets_later None H1 H2 H3).
Defined.

End MoreExamples.
